(** * MovingSign: the frame encoder of the "Moving Sign" protocol V1.2

    A shallow embedding of [movingsign.py] (Python 2: [str] is the byte
    string type, [b'{:04X}'.format] is [str.format], and [bytearray]
    accepts one-character strings as elements).

    - byte strings ([str]) are immutable values, [list byte];
    - [bytearray] objects are mutable and live in a store, addressed by
      their allocation index; [+=] on a bytearray updates the store;
    - the [MovingSign] instance is a record of attributes held in the state;
    - methods are computations in a state-and-exception monad. *)

From Stdlib Require Import NArith Strings.Byte Strings.String.
From stdpp Require Import base option list gmap strings numbers.

Local Open Scope N_scope.

(** ** Byte strings *)

Abbreviation bytes := (list byte).

(** A byte-string literal, [b"..."] in the source. *)
Definition bs (s : string) : bytes := list_byte_of_string s.

#[global] Instance byte_eq_decision : EqDecision byte := Byte.byte_eq_dec.

(** ** Integer formatting: ['{:04X}'.format(val)] *)

(** The digit alphabet of presentation type ['X']. *)
Definition hex_digit (d : N) : byte :=
  nth (N.to_nat d) (bs "0123456789ABCDEF") "0"%byte.

(** Digits of [n] in base 16, most significant first, no leading zero
    (a single ["0"] for zero).  The digits are produced from the least
    significant end; [fuel] bounds their number. *)
Fixpoint hex_digits (fuel : nat) (n : N) (acc : bytes) : bytes :=
  match fuel with
  | O => acc
  | S fuel' =>
      let acc' := hex_digit (n mod 16) :: acc in
      if n / 16 =? 0 then acc' else hex_digits fuel' (n / 16) acc'
  end.

(** ['{:X}'.format(n)] for [n >= 0]: the bit length of [n] bounds the
    number of its hexadecimal digits. *)
Definition format_X (n : N) : bytes :=
  hex_digits (S (N.to_nat (N.size n))) n [].

(** ['{:04X}'.format(val)]: fill with ['0'] up to the minimum width 4;
    a longer digit string is left as it is. *)
Definition format_04X (val : N) : bytes :=
  let d := format_X val in
  replicate (4 - length d)%nat "0"%byte ++ d.

(** [sum(bytearray(mesg))]: the left-to-right sum of the unsigned byte
    values, an unbounded integer. *)
Definition sum_bytes (b : bytes) : N :=
  foldl (fun acc c => acc + Byte.to_N c) 0 b.

(** The value [checksum] returns for a buffer holding [b]. *)
Definition checksum_of (b : bytes) : bytes := format_04X (sum_bytes b).

(** An uppercase hexadecimal digit: ['0'..'9'] or ['A'..'F']. *)
Definition is_upper_hex (c : byte) : bool :=
  bool_decide (c ∈ bs "0123456789ABCDEF").

(** The value a digit string denotes, to check [format_X] against. *)
Definition digit_value (c : byte) : N :=
  match list_find (fun d => d = c) (bs "0123456789ABCDEF") with
  | Some (i, _) => N.of_nat i
  | None => 0
  end.

Definition hex_value (d : bytes) : N :=
  foldl (fun acc c => 16 * acc + digit_value c) 0 d.

(** ** Values, the store and the instance *)

(** A [bytearray] object is named by its index in the store. *)
Abbreviation loc := nat.

(** What a method receives where the source expects a buffer: a byte
    string ([str], immutable) or a reference to a [bytearray]. *)
Inductive value :=
  | Str (s : bytes)
  | Arr (l : loc).

(** The attributes [__init__] gives an instance.  The eleven fields set
    from byte-string literals or arguments hold byte strings; [header]
    holds the [bytearray] built in [__init__]. *)
Record MovingSign := {
  sdr_addr : bytes;
  rcv_addr : bytes;
  filename : bytes;
  display_mode : bytes;
  display_speed : bytes;
  pause_time : bytes;
  show_date : bytes;
  start_time : bytes;
  stop_time : bytes;
  prep : bytes;
  align : bytes;
  header : loc
}.

Record state := {
  self : MovingSign;
  heap : list bytes
}.

Inductive exn :=
  | NameError (name : string)
  | TypeError
  | DanglingRef (l : loc).

Inductive result (A : Type) :=
  | Ok (a : A)
  | Raise (e : exn).
Arguments Ok {A} a.
Arguments Raise {A} e.

(** ** The monad of methods: state and exceptions *)

Definition M (A : Type) : Type := state -> result A * state.

#[global] Instance M_ret : MRet M := fun A a s => (Ok a, s).

#[global] Instance M_bind : MBind M := fun A B k m s =>
  match m s with
  | (Ok a, s') => k a s'
  | (Raise e, s') => (Raise e, s')
  end.

Definition raise {A} (e : exn) : M A := fun s => (Raise e, s).

(** [self.attr] *)
Definition getattr {A} (attr : MovingSign -> A) : M A :=
  fun s => (Ok (attr (self s)), s).

(** [self.attr = v], as the update [upd] of the record. *)
Definition setattr (upd : MovingSign -> MovingSign) : M unit :=
  fun s => (Ok tt, {| self := upd (self s); heap := heap s |}).

(** A new [bytearray] object holding [b]. *)
Definition alloc (b : bytes) : M loc :=
  fun s => (Ok (length (heap s)), {| self := self s; heap := heap s ++ [b] |}).

Definition load (l : loc) : M bytes :=
  fun s => match heap s !! l with
           | Some b => (Ok b, s)
           | None => (Raise (DanglingRef l), s)
           end.

Definition store (l : loc) (b : bytes) : M unit :=
  fun s => (Ok tt, {| self := self s; heap := <[l := b]> (heap s) |}).

(** The bytes a buffer argument holds. *)
Definition buffer (v : value) : M bytes :=
  match v with
  | Str s => mret s
  | Arr l => load l
  end.

(** [bytearray(v)]: a new object, a copy of the buffer. *)
Definition bytearray (v : value) : M loc :=
  b ← buffer v; alloc b.

(** [target += v] on a [bytearray]: the object is extended in place. *)
Definition iadd (target : loc) (v : value) : M unit :=
  b ← buffer v;
  old ← load target;
  store target (old ++ b).

(** [target += self.attr] for a byte-string attribute. *)
Definition iadd_attr (target : loc) (attr : MovingSign -> bytes) : M unit :=
  v ← getattr attr; iadd target (Str v).

(** What the caller observes of a method that returns a [bytearray]:
    the bytes it holds when the call returns, if the call returns. *)
Definition returned (m : M loc) (s : state) : option bytes :=
  match m s with
  | (Ok l, s') => heap s' !! l
  | (Raise _, _) => None
  end.

(** Name resolution in a method body: the byte-string locals, then
    [self] and the names the module binds ([strftime], [MovingSign]),
    none of which is a byte string, so that [b'...' + name] raises
    [TypeError] on them; a name bound nowhere raises [NameError]. *)
Definition module_globals : list string := ["strftime"; "MovingSign"]%string.

Definition load_name (locals : list (string * bytes)) (name : string) : M bytes :=
  match list_find (fun kv => kv.1 = name) locals with
  | Some (_, kv) => mret kv.2
  | None =>
      if bool_decide (name ∈ "self"%string :: module_globals)
      then raise TypeError
      else raise (NameError name)
  end.

(** ** Class constants *)

Definition NUL : byte := x00.
Definition SOH : byte := x01.
Definition STX : byte := x02.
Definition ETX : byte := x03.
Definition EOT : byte := x04.
Definition FONT_VAL : byte := xfe.
Definition COLOR_VAL : byte := xfd.

Definition CMD_WRITE_TXT : bytes := bs "A".
Definition CMD_WRITE_VAR : bytes := bs "C".
Definition CMD_WRITE_GFX : bytes := bs "E".
Definition CMD_WRITE_SPC : bytes := bs "W".
Definition CMD_READ_SPC : bytes := bs "R".

(** ** Code tables *)

(** A [dict] display [{k1: v1, k2: v2, ...}]: the items are stored from
    left to right, a repeated key keeping the value written last. *)
Definition dict_literal (items : list (string * bytes)) : gmap string bytes :=
  foldl (fun d kv => <[kv.1 := kv.2]> d) ∅ items.

Definition DISPLAY_MODE_items : list (string * bytes) :=
  [ ("auto", bs "A"); ("flash", bs "B"); ("hold", bs "C");
    ("interlock", bs "D"); ("rolldown", bs "E"); ("rollup", bs "F");
    ("rollin", bs "G"); ("rollleft", bs "I"); ("rollright", bs "J");
    ("rotate", bs "K"); ("slide", bs "L"); ("snow", bs "M");
    ("sparkle", bs "N"); ("spray", bs "O"); ("starburst", bs "P");
    ("switch", bs "Q"); ("twinkle", bs "R"); ("wipedown", bs "S");
    ("wipeup", bs "T"); ("wipein", bs "U"); ("wipeout", bs "V");
    ("wipeleft", bs "W"); ("wiperight", bs "X"); ("cyclecolor", bs "Y");
    ("clock", bs "Z") ]%string.

Definition DISPLAY_SPEED_items : list (string * bytes) :=
  [ ("faster", bs "0"); ("fast", bs "1"); ("normal", bs "2");
    ("slow", bs "3"); ("slower", bs "4") ]%string.

Definition ALIGN_items : list (string * bytes) :=
  [ ("left", bs "1"); ("right", bs "2"); ("center", bs "3") ]%string.

Definition FONT_items : list (string * bytes) :=
  [ ("SS5", bs "A"); ("ST5", bs "B"); ("WD5", bs "C"); ("WS5", bs "D");
    ("SS7", bs "E"); ("ST7", bs "F"); ("WD7", bs "G"); ("WS7", bs "H");
    ("SDS", bs "I"); ("SRF", bs "J"); ("STF", bs "K"); ("WDF", bs "L");
    ("WSF", bs "M"); ("SDF", bs "N"); ("SS10", bs "O"); ("ST10", bs "P");
    ("WD10", bs "Q"); ("WS10", bs "R"); ("SS15", bs "S"); ("ST15", bs "T");
    ("WD15", bs "U"); ("WS15", bs "V"); ("SS23", bs "W"); ("SS31", bs "X");
    ("SMALL", bs "@") ]%string.

Definition COLOR_items : list (string * bytes) :=
  [ ("auto", bs "A"); ("lightred", bs "B"); ("lightgreen", bs "C");
    ("red", bs "D"); ("green", bs "E"); ("yellow", bs "F");
    ("brown", bs "G"); ("amber", bs "H"); ("orange", bs "I");
    ("mix1", bs "J"); ("mix2", bs "K"); ("mixh", bs "L");
    ("black", bs "M") ]%string.

Definition SYMBOLS_items : list (string * bytes) :=
  [ ("sunburst", [xd0]); ("clock", [xd1]); ("telephone", [xd2]);
    ("sunglasses", [xd3]); ("faucet", [xd4]); ("bug", [xd5]);
    ("key", [xd6]); ("shirt", [xd7]); ("helicopter", [xd8]);
    ("car", [xd9]); ("lantern", [xda]); ("pyramid", [xdb]);
    ("whale", [xdc]); ("scooter", [xdd]); ("bicycle", [xde]);
    ("crown", [xdf]); ("dheart", [xe0]); ("rarrow", [xe1]);
    ("larrow", [xe2]); ("ldarrow", [xe3]); ("luarrow", [xe4]);
    ("gas", [xe5]); ("chair", [xe6]); ("shoe", [xe7]);
    ("martini", [xe8]); ("envelope", [xe9]); ("hamburger", [xea]) ]%string.

Definition DISPLAY_MODE : gmap string bytes := dict_literal DISPLAY_MODE_items.
Definition DISPLAY_SPEED : gmap string bytes := dict_literal DISPLAY_SPEED_items.
Definition ALIGN : gmap string bytes := dict_literal ALIGN_items.
Definition FONT : gmap string bytes := dict_literal FONT_items.
Definition COLOR : gmap string bytes := dict_literal COLOR_items.
Definition SYMBOLS : gmap string bytes := dict_literal SYMBOLS_items.

(** Every name of the table has a code of one byte. *)
Definition single_byte_codes (T : gmap string bytes) : Prop :=
  forall name code, T !! name = Some code -> length code = 1%nat.

(** No two names of the table have the same code. *)
Definition injective_table (T : gmap string bytes) : Prop :=
  forall name1 name2 code,
    T !! name1 = Some code -> T !! name2 = Some code -> name1 = name2.

(** ** The class [MovingSign] *)

(** [MovingSign(sdr_addr, rcv_addr)]: the instance and its header, a
    new [bytearray] of five NUL, in the store [objects]. *)
Definition __init__ (sdr_addr rcv_addr : bytes) (objects : list bytes) : state :=
  {| self := {| sdr_addr := sdr_addr;
                rcv_addr := rcv_addr;
                filename := bs "A";
                display_mode := bs "A";
                display_speed := bs "2";
                pause_time := bs "2";
                show_date := bs "7F";
                start_time := bs "0000";
                stop_time := bs "2400";
                prep := bs "000";
                align := bs "3";
                header := length objects |};
     heap := objects ++ [[NUL; NUL; NUL; NUL; NUL]] |}.

(** The default arguments of [__init__]. *)
Definition default_sdr_addr : bytes := bs "FF".
Definition default_rcv_addr : bytes := bs "00".

Definition checksum (mesg : value) : M bytes :=
  tmp ← bytearray mesg;
  ints ← load tmp;
  let val := sum_bytes ints in
  mret (format_04X val).

Definition with_sdr_addr (v : bytes) (o : MovingSign) : MovingSign :=
  {| sdr_addr := v; rcv_addr := rcv_addr o; filename := filename o;
     display_mode := display_mode o; display_speed := display_speed o;
     pause_time := pause_time o; show_date := show_date o;
     start_time := start_time o; stop_time := stop_time o;
     prep := prep o; align := align o; header := header o |}.

Definition with_rcv_addr (v : bytes) (o : MovingSign) : MovingSign :=
  {| sdr_addr := sdr_addr o; rcv_addr := v; filename := filename o;
     display_mode := display_mode o; display_speed := display_speed o;
     pause_time := pause_time o; show_date := show_date o;
     start_time := start_time o; stop_time := stop_time o;
     prep := prep o; align := align o; header := header o |}.

Definition with_display_mode (v : bytes) (o : MovingSign) : MovingSign :=
  {| sdr_addr := sdr_addr o; rcv_addr := rcv_addr o; filename := filename o;
     display_mode := v; display_speed := display_speed o;
     pause_time := pause_time o; show_date := show_date o;
     start_time := start_time o; stop_time := stop_time o;
     prep := prep o; align := align o; header := header o |}.

Definition with_display_speed (v : bytes) (o : MovingSign) : MovingSign :=
  {| sdr_addr := sdr_addr o; rcv_addr := rcv_addr o; filename := filename o;
     display_mode := display_mode o; display_speed := v;
     pause_time := pause_time o; show_date := show_date o;
     start_time := start_time o; stop_time := stop_time o;
     prep := prep o; align := align o; header := header o |}.

Definition with_align (v : bytes) (o : MovingSign) : MovingSign :=
  {| sdr_addr := sdr_addr o; rcv_addr := rcv_addr o; filename := filename o;
     display_mode := display_mode o; display_speed := display_speed o;
     pause_time := pause_time o; show_date := show_date o;
     start_time := start_time o; stop_time := stop_time o;
     prep := prep o; align := v; header := header o |}.

Definition set_sdr_addr (sender : bytes) : M unit :=
  setattr (with_sdr_addr sender).

Definition set_rcv_addr (receiver : bytes) : M unit :=
  setattr (with_rcv_addr receiver).

Definition set_text_mode (display_mode : bytes) : M unit :=
  setattr (with_display_mode display_mode).

Definition set_text_speed (display_speed : bytes) : M unit :=
  setattr (with_display_speed display_speed).

Definition set_text_align (align : bytes) : M unit :=
  setattr (with_align align).

Definition protocol (mesg : value) : M loc :=
  cmd ← alloc [];
  hdr ← getattr header;
  iadd cmd (Arr hdr);;
  iadd cmd (Str [SOH]);;
  iadd_attr cmd sdr_addr;;
  iadd_attr cmd rcv_addr;;
  iadd cmd mesg;;
  ck ← checksum mesg;
  iadd cmd (Str ck);;
  iadd cmd (Str [EOT]);;
  mret cmd.

Definition cmd_txt (data : bytes) : M loc :=
  mesg ← alloc [STX];
  iadd mesg (Str CMD_WRITE_TXT);;
  iadd_attr mesg filename;;
  iadd_attr mesg display_mode;;
  iadd_attr mesg display_speed;;
  iadd_attr mesg pause_time;;
  iadd_attr mesg show_date;;
  iadd_attr mesg start_time;;
  iadd_attr mesg stop_time;;
  iadd_attr mesg prep;;
  iadd_attr mesg align;;
  iadd mesg (Str data);;
  iadd mesg (Str [ETX]);;
  protocol (Arr mesg).

Definition cmd_var (var attr data : bytes) : M loc :=
  mesg ← alloc [STX];
  iadd mesg (Str CMD_WRITE_VAR);;
  iadd mesg (Str var);;
  iadd mesg (Str attr);;
  iadd mesg (Str data);;
  iadd mesg (Str [ETX]);;
  protocol (Arr mesg).

Definition cmd_gfx (attr data : bytes) : M loc :=
  mesg ← alloc [STX];
  iadd mesg (Str CMD_WRITE_GFX);;
  iadd_attr mesg filename;;
  iadd mesg (Str attr);;
  iadd mesg (Str data);;
  iadd mesg (Str [ETX]);;
  protocol (Arr mesg).

Definition cmd_write_special (data : bytes) : M loc :=
  mesg ← alloc [STX];
  iadd mesg (Str CMD_WRITE_SPC);;
  iadd mesg (Str data);;
  iadd mesg (Str [ETX]);;
  protocol (Arr mesg).

Definition cmd_read_special (data : bytes) : M loc :=
  mesg ← alloc [STX];
  iadd mesg (Str CMD_READ_SPC);;
  iadd mesg (Str data);;
  iadd mesg (Str [ETX]);;
  protocol (Arr mesg).

Definition clear : M loc :=
  mesg ← cmd_write_special (bs "L");
  mret mesg.

Definition reset : M loc :=
  mesg ← cmd_write_special (bs "B");
  mret mesg.

Definition clock (datetimeweek : bytes) : M loc :=
  mesg ← cmd_write_special (bs "A" ++ datetimeweek);
  mret mesg.

(** [strftime("%Y%m%d%H%M%S%w")] reads the host's clock: its result is
    the argument [now]. *)
Definition clock_sync (now : bytes) : M loc :=
  mesg ← clock now;
  mret mesg.

Definition passwd (passwd : bytes) : M loc :=
  mesg ← cmd_write_special (bs "C" ++ passwd);
  mret mesg.

Definition set_dev_num (num : bytes) : M loc :=
  mesg ← cmd_write_special (bs "D" ++ num);
  mret mesg.

Definition set_display_times (display_times : bytes) : M loc :=
  mesg ← cmd_write_special (bs "E" ++ display_times);
  mret mesg.

(** The parameter is [display_time]; the body reads [display_mode]. *)
Definition set_display_mode (display_time : bytes) : M loc :=
  display_mode ← load_name [("display_time"%string, display_time)] "display_mode";
  mesg ← cmd_write_special (bs "F" ++ display_mode);
  mret mesg.

Definition set_cue_voice (cue : bytes) : M loc :=
  mesg ← cmd_write_special (bs "J" ++ cue);
  mret mesg.

Definition set_passwd_mode (mode : bytes) : M loc :=
  mesg ← cmd_write_special (bs "K" ++ mode);
  mret mesg.

Definition set_brightness (level : bytes) : M loc :=
  mesg ← cmd_write_special (bs "P" ++ level);
  mret mesg.

(** ** Vocabulary of the statements *)

(** The buffer [v] holds the bytes [b] in state [s]. *)
Definition holds (s : state) (v : value) (b : bytes) : Prop :=
  match v with
  | Str x => x = b
  | Arr l => heap s !! l = Some b
  end.

(** The header of the instance is the five NUL bytes [__init__] stored. *)
Definition header_ok (s : state) : Prop :=
  heap s !! header (self s) = Some [NUL; NUL; NUL; NUL; NUL].

(** The nine per-file fields of a Write-Text body, in wire order. *)
Definition text_fields (o : MovingSign) : bytes :=
  filename o ++ display_mode o ++ display_speed o ++ pause_time o ++
  show_date o ++ start_time o ++ stop_time o ++ prep o ++ align o.

(** The widths the protocol gives the fields of the instance. *)
Definition fixed_width (o : MovingSign) : Prop :=
  length (sdr_addr o) = 2%nat /\ length (rcv_addr o) = 2%nat /\
  length (filename o) = 1%nat /\ length (display_mode o) = 1%nat /\
  length (display_speed o) = 1%nat /\ length (pause_time o) = 1%nat /\
  length (show_date o) = 2%nat /\ length (start_time o) = 4%nat /\
  length (stop_time o) = 4%nat /\ length (prep o) = 3%nat /\
  length (align o) = 1%nat.

(** The wire format: five NUL, SOH, the two addresses, a body from STX
    to ETX that starts with the command code, the checksum of the body
    and EOT. *)
Definition frame_shaped (sdr rcv code payload frame : bytes) : Prop :=
  let body := [STX] ++ code ++ payload ++ [ETX] in
  frame = [NUL; NUL; NUL; NUL; NUL] ++ [SOH] ++ sdr ++ rcv ++
          body ++ checksum_of body ++ [EOT].

(** The envelope [protocol] puts around a body, given the bytes of the
    header object. *)
Definition envelope (o : MovingSign) (hdr body : bytes) : bytes :=
  hdr ++ [SOH] ++ sdr_addr o ++ rcv_addr o ++ body ++
  checksum_of body ++ [EOT].

(** The instance whose nine text fields are the bytes [f] cut at the
    widths of the protocol; the addresses and the header are those of [o]. *)
Definition refit (f : bytes) (o : MovingSign) : MovingSign :=
  {| sdr_addr := sdr_addr o;
     rcv_addr := rcv_addr o;
     filename := take 1 f;
     display_mode := take 1 (drop 1 f);
     display_speed := take 1 (drop 2 f);
     pause_time := take 1 (drop 3 f);
     show_date := take 2 (drop 4 f);
     start_time := take 4 (drop 6 f);
     stop_time := take 4 (drop 10 f);
     prep := take 3 (drop 14 f);
     align := drop 17 f;
     header := header o |}.

(** The attributes of an instance, by name. *)
Inductive attribute :=
  | a_sdr_addr | a_rcv_addr | a_filename | a_display_mode | a_display_speed
  | a_pause_time | a_show_date | a_start_time | a_stop_time | a_prep
  | a_align | a_header.

Definition attr_value (a : attribute) (o : MovingSign) : value :=
  match a with
  | a_sdr_addr => Str (sdr_addr o)
  | a_rcv_addr => Str (rcv_addr o)
  | a_filename => Str (filename o)
  | a_display_mode => Str (display_mode o)
  | a_display_speed => Str (display_speed o)
  | a_pause_time => Str (pause_time o)
  | a_show_date => Str (show_date o)
  | a_start_time => Str (start_time o)
  | a_stop_time => Str (stop_time o)
  | a_prep => Str (prep o)
  | a_align => Str (align o)
  | a_header => Arr (header o)
  end.

(** Nothing the caller could see before the call has changed: every
    attribute has its value, and every [bytearray] that existed (the
    header among them) holds its bytes. *)
Definition unchanged (s s' : state) : Prop :=
  (forall a, attr_value a (self s') = attr_value a (self s)) /\
  (forall l b, heap s !! l = Some b -> heap s' !! l = Some b).

(** Attribute [a] now holds [v]; no other attribute and no object of
    the store has changed. *)
Definition assigns_only (a : attribute) (v : bytes) (s s' : state) : Prop :=
  attr_value a (self s') = Str v /\
  (forall a', a' <> a -> attr_value a' (self s') = attr_value a' (self s)) /\
  heap s' = heap s.

(** [m] keeps the instance and the first [n] objects of the store,
    whether it returns or raises; a value it returns satisfies [Q]. *)
Definition keeps {A} (n : nat) (m : M A) (Q : A -> Prop) : Prop :=
  forall s, (n <= length (heap s))%nat ->
    self (m s).2 = self s /\
    take n (heap (m s).2) = take n (heap s) /\
    match (m s).1 with Ok a => Q a | Raise _ => True end.

(** The calls that build a frame (and [checksum], which they use). *)
Inductive call :=
  | call_checksum (mesg : value)
  | call_protocol (mesg : value)
  | call_cmd_txt (data : bytes)
  | call_cmd_var (var attr data : bytes)
  | call_cmd_gfx (attr data : bytes)
  | call_cmd_write_special (data : bytes)
  | call_cmd_read_special (data : bytes)
  | call_clear
  | call_reset
  | call_clock (datetimeweek : bytes)
  | call_clock_sync (now : bytes)
  | call_passwd (passwd : bytes)
  | call_set_dev_num (num : bytes)
  | call_set_display_times (display_times : bytes)
  | call_set_display_mode (display_time : bytes)
  | call_set_cue_voice (cue : bytes)
  | call_set_passwd_mode (mode : bytes)
  | call_set_brightness (level : bytes).

(** The state a call leaves, whether it returns or raises. *)
Definition state_after (c : call) (s : state) : state :=
  match c with
  | call_checksum mesg => (checksum mesg s).2
  | call_protocol mesg => (protocol mesg s).2
  | call_cmd_txt data => (cmd_txt data s).2
  | call_cmd_var var attr data => (cmd_var var attr data s).2
  | call_cmd_gfx attr data => (cmd_gfx attr data s).2
  | call_cmd_write_special data => (cmd_write_special data s).2
  | call_cmd_read_special data => (cmd_read_special data s).2
  | call_clear => (clear s).2
  | call_reset => (reset s).2
  | call_clock datetimeweek => (clock datetimeweek s).2
  | call_clock_sync now => (clock_sync now s).2
  | call_passwd p => (passwd p s).2
  | call_set_dev_num num => (set_dev_num num s).2
  | call_set_display_times display_times =>
      (set_display_times display_times s).2
  | call_set_display_mode display_time => (set_display_mode display_time s).2
  | call_set_cue_voice cue => (set_cue_voice cue s).2
  | call_set_passwd_mode mode => (set_passwd_mode mode s).2
  | call_set_brightness level => (set_brightness level s).2
  end.

(** The states a program reaches: it constructs the instance, then
    calls methods on it. *)
Inductive reachable : state -> Prop :=
  | reach_init sdr rcv objects : reachable (__init__ sdr rcv objects)
  | reach_call c s : reachable s -> reachable (state_after c s)
  | reach_set_sdr_addr v s : reachable s -> reachable (set_sdr_addr v s).2
  | reach_set_rcv_addr v s : reachable s -> reachable (set_rcv_addr v s).2
  | reach_set_text_mode v s : reachable s -> reachable (set_text_mode v s).2
  | reach_set_text_speed v s : reachable s -> reachable (set_text_speed v s).2
  | reach_set_text_align v s : reachable s -> reachable (set_text_align v s).2.

(** The input on which the byte sum passes [0xFFFF]: 257 bytes [0xFF]
    and one byte [0x42], which sum to [0x10041]. *)
Definition overflow_body : bytes := replicate 257 xff ++ [x42].

(** The sum of the unsigned values of the bytes, as the protocol
    defines the checksum: written by recursion on the buffer,
    independently of how [checksum] computes it. *)
Fixpoint byte_total (b : bytes) : N :=
  match b with
  | [] => 0
  | c :: rest => Byte.to_N c + byte_total rest
  end.

(** The bytes the class reserves: the five markers of the frame and
    the two lead bytes of inline font and colour codes. *)
Definition reserved_bytes : bytes :=
  [NUL; SOH; STX; ETX; EOT; FONT_VAL; COLOR_VAL].

(** No code of the table contains a reserved byte. *)
Definition no_reserved_codes (T : gmap string bytes) : Prop :=
  forall name code, T !! name = Some code ->
    forall c, c ∈ code -> c ∉ reserved_bytes.

(** The table binds exactly the items its display writes. *)
Definition same_items (T : gmap string bytes)
    (items : list (string * bytes)) : Prop :=
  forall name code, T !! name = Some code <-> (name, code) ∈ items.

(** * Properties *)

(** ** The formatting of the checksum *)

Lemma hex_digits_acc fuel n acc :
  hex_digits fuel n acc = hex_digits fuel n [] ++ acc.
Proof.
  revert n acc. induction fuel as [|fuel IH]; intros n acc; simpl; [done|].
  destruct (n / 16 =? 0); [done|].
  rewrite (IH _ (_ :: acc)), (IH _ [_]), <- app_assoc. done.
Qed.

Lemma hex_digits_fuel f1 f2 n acc :
  n < 2 ^ N.of_nat f1 -> n < 2 ^ N.of_nat f2 ->
  hex_digits (S f1) n acc = hex_digits (S f2) n acc.
Proof.
  revert f2 n acc. induction f1 as [|f1 IH]; intros f2 n acc H1 H2.
  - assert (n = 0) as -> by (simpl in H1; lia). reflexivity.
  - cbn [hex_digits]. destruct (N.eqb_spec (n / 16) 0) as [|Hq]; [done|].
    destruct f2 as [|f2].
    + assert (n = 0) as -> by (simpl in H2; lia). done.
    + apply IH.
      * rewrite Nat2N.inj_succ, N.pow_succ_r' in H1.
        apply N.Div0.div_lt_upper_bound. lia.
      * rewrite Nat2N.inj_succ, N.pow_succ_r' in H2.
        apply N.Div0.div_lt_upper_bound. lia.
Qed.

Lemma size_bound n : n < 2 ^ N.of_nat (N.to_nat (N.size n)).
Proof. rewrite N2Nat.id. apply N.size_gt. Qed.

Lemma format_X_small n : n < 16 -> format_X n = [hex_digit n].
Proof.
  intros Hn. unfold format_X. cbn [hex_digits].
  rewrite N.div_small, N.mod_small by done. reflexivity.
Qed.

Lemma format_X_step n :
  16 <= n -> format_X n = format_X (n / 16) ++ [hex_digit (n mod 16)].
Proof.
  intros Hn. unfold format_X. cbn [hex_digits].
  assert (n / 16 <> 0) as Hq.
  { intros Hq. apply N.div_small_iff in Hq; lia. }
  destruct (N.eqb_spec (n / 16) 0) as [|_]; [done|].
  rewrite hex_digits_acc. f_equal.
  pose proof (size_bound n) as Hs.
  destruct (N.to_nat (N.size n)) as [|k] eqn:Hk.
  { simpl in Hs. lia. }
  apply hex_digits_fuel; [|apply size_bound].
  rewrite Nat2N.inj_succ, N.pow_succ_r' in Hs.
  apply N.Div0.div_lt_upper_bound. lia.
Qed.

Lemma hex_digit_upper d : d < 16 -> is_upper_hex (hex_digit d) = true.
Proof.
  intros Hd. assert (exists k, (k < 16)%nat /\ d = N.of_nat k) as (k & Hk & ->).
  { exists (N.to_nat d). split; lia. }
  do 16 (destruct k as [|k]; [by vm_compute|]). lia.
Qed.

Lemma digit_value_hex_digit d : d < 16 -> digit_value (hex_digit d) = d.
Proof.
  intros Hd. assert (exists k, (k < 16)%nat /\ d = N.of_nat k) as (k & Hk & ->).
  { exists (N.to_nat d). split; lia. }
  do 16 (destruct k as [|k]; [by vm_compute|]). lia.
Qed.

Lemma hex_value_snoc d c : hex_value (d ++ [c]) = 16 * hex_value d + digit_value c.
Proof. unfold hex_value. by rewrite foldl_snoc. Qed.

(** [format_X] writes the number it is given: reading the digits back
    gives [n], and every digit is an uppercase hexadecimal digit. *)
Lemma format_X_value n : hex_value (format_X n) = n.
Proof.
  induction n as [n IH] using (well_founded_induction N.lt_wf_0).
  destruct (N.lt_ge_cases n 16) as [Hn|Hn].
  - rewrite format_X_small by done. unfold hex_value. simpl.
    by rewrite digit_value_hex_digit.
  - rewrite format_X_step, hex_value_snoc by done.
    rewrite IH by (apply N.div_lt; lia).
    rewrite digit_value_hex_digit by (apply N.mod_lt; lia).
    symmetry. apply N.div_mod. lia.
Qed.

Lemma format_X_upper n : forallb is_upper_hex (format_X n) = true.
Proof.
  induction n as [n IH] using (well_founded_induction N.lt_wf_0).
  destruct (N.lt_ge_cases n 16) as [Hn|Hn].
  - rewrite format_X_small by done. simpl. by rewrite hex_digit_upper.
  - rewrite format_X_step, forallb_app by done.
    rewrite IH by (apply N.div_lt; lia). simpl.
    by rewrite hex_digit_upper by (apply N.mod_lt; lia).
Qed.

(** The number of digits: [k] digits exactly for [16^(k-1) <= n < 16^k]. *)
Lemma format_X_length k n :
  16 ^ N.of_nat k <= n -> n < 16 ^ N.of_nat (S k) ->
  length (format_X n) = S k.
Proof.
  revert n. induction k as [|k IH]; intros n Hlo Hhi.
  - rewrite format_X_small; [done|]. simpl in Hhi. lia.
  - rewrite Nat2N.inj_succ, N.pow_succ_r' in Hlo.
    rewrite (Nat2N.inj_succ (S k)), N.pow_succ_r' in Hhi.
    assert (0 < 16 ^ N.of_nat k) by (apply N.neq_0_lt_0, N.pow_nonzero; lia).
    rewrite format_X_step by lia.
    rewrite length_app, IH; simpl; [lia| |].
    + apply N.div_le_lower_bound; lia.
    + apply N.Div0.div_lt_upper_bound; lia.
Qed.

Lemma format_X_length_ge k n :
  16 ^ N.of_nat k <= n -> (S k <= length (format_X n))%nat.
Proof.
  revert n. induction k as [|k IH]; intros n Hlo.
  - destruct (N.lt_ge_cases n 16) as [Hn|Hn].
    + by rewrite format_X_small.
    + rewrite format_X_step, length_app by done. simpl. lia.
  - rewrite Nat2N.inj_succ, N.pow_succ_r' in Hlo.
    assert (0 < 16 ^ N.of_nat k) by (apply N.neq_0_lt_0, N.pow_nonzero; lia).
    rewrite format_X_step by lia.
    rewrite length_app. simpl.
    specialize (IH (n / 16)). 
    assert (16 ^ N.of_nat k <= n / 16) by (apply N.div_le_lower_bound; lia).
    lia.
Qed.

(** Below [0x10000] the minimum width decides: four digits. *)
Lemma format_04X_four n :
  n <= 0xFFFF ->
  format_04X n = [hex_digit (n / 4096); hex_digit (n / 256 mod 16);
                  hex_digit (n / 16 mod 16); hex_digit (n mod 16)].
Proof.
  intros Hn. unfold format_04X.
  destruct (N.lt_ge_cases n 16) as [H1|H1].
  { rewrite format_X_small by done. simpl.
    rewrite (N.div_small n 4096), (N.div_small n 256), (N.div_small n 16) by lia.
    rewrite (N.mod_small n 16) by lia. reflexivity. }
  rewrite (format_X_step n) by done.
  destruct (N.lt_ge_cases n 256) as [H2|H2].
  { rewrite format_X_small by (apply N.Div0.div_lt_upper_bound; lia). simpl.
    rewrite (N.div_small n 4096), (N.div_small n 256) by lia.
    rewrite (N.mod_small (n / 16) 16) by (apply N.Div0.div_lt_upper_bound; lia).
    reflexivity. }
  assert (n / 16 / 16 = n / 256) as E2 by (rewrite N.Div0.div_div; done).
  rewrite (format_X_step (n / 16)) by (apply N.div_le_lower_bound; lia).
  rewrite E2.
  destruct (N.lt_ge_cases n 4096) as [H3|H3].
  { rewrite format_X_small by (apply N.Div0.div_lt_upper_bound; lia). simpl.
    rewrite (N.div_small n 4096) by lia.
    rewrite (N.mod_small (n / 256) 16) by (apply N.Div0.div_lt_upper_bound; lia).
    reflexivity. }
  assert (n / 256 / 16 = n / 4096) as E3 by (rewrite N.Div0.div_div; done).
  rewrite (format_X_step (n / 256)) by (apply N.div_le_lower_bound; lia).
  rewrite E3.
  rewrite format_X_small by (apply N.Div0.div_lt_upper_bound; lia).
  reflexivity.
Qed.

Lemma format_04X_upper n :
  n <= 0xFFFF -> forallb is_upper_hex (format_04X n) = true.
Proof.
  intros Hn. rewrite format_04X_four by done. simpl.
  rewrite !hex_digit_upper; [done|apply N.mod_lt; lia..|].
  apply N.Div0.div_lt_upper_bound. lia.
Qed.

(** Zero-padding does not change the number the digits denote. *)
Lemma format_04X_value n : hex_value (format_04X n) = n.
Proof.
  unfold format_04X.
  assert (forall k d, hex_value (replicate k "0"%byte ++ d) = hex_value d) as Hpad.
  { intros k d. unfold hex_value. rewrite foldl_app.
    f_equal. induction k as [|k IH]; [done|]. simpl. apply IH. }
  rewrite Hpad. apply format_X_value.
Qed.

(** From [0x10000] on the digits are more than four and nothing is cut. *)
Lemma format_04X_wide n :
  0xFFFF < n -> format_04X n = format_X n /\ (5 <= length (format_X n))%nat.
Proof.
  intros Hn. assert (5 <= length (format_X n))%nat as Hlen.
  { apply (format_X_length_ge 4). simpl. lia. }
  split; [|done]. unfold format_04X.
  replace (4 - length (format_X n))%nat with 0%nat by lia. done.
Qed.

Lemma sum_bytes_from a b :
  foldl (fun acc c => acc + Byte.to_N c) a b = a + sum_bytes b.
Proof.
  unfold sum_bytes. revert a. induction b as [|c b IH]; intros a; simpl; [lia|].
  rewrite (IH (a + _)), (IH (0 + _)). lia.
Qed.

Lemma sum_bytes_cons c b : sum_bytes (c :: b) = Byte.to_N c + sum_bytes b.
Proof. unfold sum_bytes at 1. simpl. by rewrite sum_bytes_from. Qed.

Lemma sum_bytes_app a b : sum_bytes (a ++ b) = sum_bytes a + sum_bytes b.
Proof.
  induction a as [|c a IH]; [done|].
  rewrite <- app_comm_cons, !sum_bytes_cons, IH. lia.
Qed.

Lemma sum_bytes_replicate k c :
  sum_bytes (replicate k c) = N.of_nat k * Byte.to_N c.
Proof.
  induction k as [|k IH]; [done|].
  cbn [replicate]. rewrite sum_bytes_cons, IH. lia.
Qed.

Lemma sum_bytes_bound b : sum_bytes b <= 255 * N.of_nat (length b).
Proof.
  induction b as [|c b IH]; [done|].
  rewrite sum_bytes_cons. pose proof (Byte.to_N_bounded c). simpl length. lia.
Qed.

Lemma sum_overflow_body : sum_bytes overflow_body = 0x10041.
Proof.
  unfold overflow_body. rewrite sum_bytes_app, sum_bytes_replicate. reflexivity.
Qed.

(** ** Running a method on a state *)

Section Run.
Context {A B : Type}.
Implicit Types (m : M A) (k : A -> M B) (s : state).

Lemma bind_Ok m k s a s' : m s = (Ok a, s') -> (m ≫= k) s = k a s'.
Proof. intros H. unfold mbind, M_bind. by rewrite H. Qed.

Lemma bind_Raise m k s e s' :
  m s = (Raise e, s') -> (m ≫= k) s = (Raise e, s').
Proof. intros H. unfold mbind, M_bind. by rewrite H. Qed.
End Run.

(** One step of a method body: the first command runs as [tac] shows. *)
Ltac run_with tac := erewrite bind_Ok; [ | tac ]; cbv beta.

Section Store.
Implicit Types (o : MovingSign) (h t : list bytes) (b c : bytes).

Lemma holds_app o h t v b :
  holds {| self := o; heap := h |} v b ->
  holds {| self := o; heap := h ++ t |} v b.
Proof. destruct v; simpl; [done|]. apply lookup_app_l_Some. Qed.

Lemma buffer_holds o h v b :
  holds {| self := o; heap := h |} v b ->
  buffer v {| self := o; heap := h |} = (Ok b, {| self := o; heap := h |}).
Proof.
  destruct v as [x|l]; simpl; [by intros ->|].
  intros H. unfold load. simpl. by rewrite H.
Qed.

Lemma alloc_run o h b :
  alloc b {| self := o; heap := h |}
  = (Ok (length h), {| self := o; heap := h ++ [b] |}).
Proof. reflexivity. Qed.

Lemma getattr_run {T} (attr : MovingSign -> T) o h :
  getattr attr {| self := o; heap := h |}
  = (Ok (attr o), {| self := o; heap := h |}).
Proof. reflexivity. Qed.

(** [+=] on the object allocated right after [h]. *)
Lemma iadd_run o h c t v b :
  holds {| self := o; heap := h |} v b ->
  iadd (length h) v {| self := o; heap := h ++ c :: t |}
  = (Ok tt, {| self := o; heap := h ++ (c ++ b) :: t |}).
Proof.
  intros Hv. unfold iadd.
  run_with ltac:(apply buffer_holds, (holds_app _ _ (c :: t)), Hv).
  unfold mbind, M_bind, load, store. cbn [self heap].
  rewrite list_lookup_middle by done. cbn [self heap].
  rewrite insert_app_r_alt, Nat.sub_diag by done. reflexivity.
Qed.

Lemma iadd_attr_run o h c t attr :
  iadd_attr (length h) attr {| self := o; heap := h ++ c :: t |}
  = (Ok tt, {| self := o; heap := h ++ (c ++ attr o) :: t |}).
Proof.
  unfold iadd_attr. run_with ltac:(apply getattr_run).
  by apply iadd_run.
Qed.

Lemma checksum_run o h mesg body :
  holds {| self := o; heap := h |} mesg body ->
  checksum mesg {| self := o; heap := h |}
  = (Ok (checksum_of body), {| self := o; heap := h ++ [body] |}).
Proof.
  intros Hm. unfold checksum, bytearray.
  run_with ltac:(erewrite bind_Ok; [apply alloc_run | by apply buffer_holds]).
  unfold mbind, M_bind, load. cbn [self heap].
  by rewrite list_lookup_middle.
Qed.

Lemma protocol_run o h mesg body hdr :
  h !! header o = Some hdr ->
  holds {| self := o; heap := h |} mesg body ->
  protocol mesg {| self := o; heap := h |}
  = (Ok (length h),
     {| self := o;
        heap := h ++ [envelope o hdr body; body] |}).
Proof.
  intros Hh Hm. unfold protocol, envelope.
  run_with ltac:(apply alloc_run).
  run_with ltac:(apply getattr_run).
  run_with ltac:(by apply (iadd_run _ _ _ _ (Arr _) hdr)).
  run_with ltac:(by apply (iadd_run _ _ _ _ (Str _))).
  run_with ltac:(apply iadd_attr_run).
  run_with ltac:(apply iadd_attr_run).
  run_with ltac:(by apply iadd_run).
  run_with ltac:(apply checksum_run, (holds_app _ _ [_]), Hm).
  rewrite <- app_assoc. cbn [app].
  run_with ltac:(by apply (iadd_run _ _ _ _ (Str _))).
  run_with ltac:(by apply (iadd_run _ _ _ _ (Str _))).
  unfold mret, M_ret. rewrite <- !app_assoc. reflexivity.
Qed.

(** A body built in a new [bytearray] and handed to [protocol]. *)
Lemma protocol_fresh_run o h body hdr :
  h !! header o = Some hdr ->
  protocol (Arr (length h)) {| self := o; heap := h ++ [body] |}
  = (Ok (S (length h)),
     {| self := o;
        heap := h ++ [body; envelope o hdr body; body] |}).
Proof.
  intros Hh.
  rewrite (protocol_run _ _ _ body hdr).
  - rewrite length_app, <- app_assoc. simpl. do 2 f_equal. lia.
  - by apply lookup_app_l_Some.
  - simpl. by apply list_lookup_middle.
Qed.
End Store.

(** ** What each encoder builds *)

Section Encoders.
Implicit Types (o : MovingSign) (h : list bytes) (hdr : bytes).

(** The body is built in a new object, then framed. *)
Ltac build_body Hh :=
  run_with ltac:(apply alloc_run);
  repeat first
    [ run_with ltac:(by apply (iadd_run _ _ _ _ (Str _)))
    | run_with ltac:(apply iadd_attr_run) ];
  rewrite (protocol_fresh_run _ _ _ _ Hh);
  rewrite <- ?app_assoc; reflexivity.

Lemma cmd_txt_run o h hdr data :
  h !! header o = Some hdr ->
  let body := [STX] ++ CMD_WRITE_TXT ++ filename o ++ display_mode o ++
              display_speed o ++ pause_time o ++ show_date o ++
              start_time o ++ stop_time o ++ prep o ++ align o ++
              data ++ [ETX] in
  cmd_txt data {| self := o; heap := h |}
  = (Ok (S (length h)),
     {| self := o; heap := h ++ [body; envelope o hdr body; body] |}).
Proof. intros Hh body. subst body. unfold cmd_txt. build_body Hh. Qed.

Lemma cmd_var_run o h hdr var attr data :
  h !! header o = Some hdr ->
  let body := [STX] ++ CMD_WRITE_VAR ++ var ++ attr ++ data ++ [ETX] in
  cmd_var var attr data {| self := o; heap := h |}
  = (Ok (S (length h)),
     {| self := o; heap := h ++ [body; envelope o hdr body; body] |}).
Proof. intros Hh body. subst body. unfold cmd_var. build_body Hh. Qed.

Lemma cmd_gfx_run o h hdr attr data :
  h !! header o = Some hdr ->
  let body := [STX] ++ CMD_WRITE_GFX ++ filename o ++ attr ++ data ++ [ETX] in
  cmd_gfx attr data {| self := o; heap := h |}
  = (Ok (S (length h)),
     {| self := o; heap := h ++ [body; envelope o hdr body; body] |}).
Proof. intros Hh body. subst body. unfold cmd_gfx. build_body Hh. Qed.

Lemma cmd_write_special_run o h hdr data :
  h !! header o = Some hdr ->
  let body := [STX] ++ CMD_WRITE_SPC ++ data ++ [ETX] in
  cmd_write_special data {| self := o; heap := h |}
  = (Ok (S (length h)),
     {| self := o; heap := h ++ [body; envelope o hdr body; body] |}).
Proof. intros Hh body. subst body. unfold cmd_write_special. build_body Hh. Qed.

Lemma cmd_read_special_run o h hdr data :
  h !! header o = Some hdr ->
  let body := [STX] ++ CMD_READ_SPC ++ data ++ [ETX] in
  cmd_read_special data {| self := o; heap := h |}
  = (Ok (S (length h)),
     {| self := o; heap := h ++ [body; envelope o hdr body; body] |}).
Proof. intros Hh body. subst body. unfold cmd_read_special. build_body Hh. Qed.

(** What the caller receives. *)
Lemma returned_protocol o h hdr mesg body :
  h !! header o = Some hdr ->
  holds {| self := o; heap := h |} mesg body ->
  returned (protocol mesg) {| self := o; heap := h |}
  = Some (envelope o hdr body).
Proof.
  intros Hh Hm. unfold returned. rewrite (protocol_run _ _ _ body hdr) by done.
  cbn [heap]. by apply list_lookup_middle.
Qed.

Lemma returned_second h (x y z : bytes) :
  (h ++ [x; y; z]) !! S (length h) = Some y.
Proof.
  change (h ++ [x; y; z]) with (h ++ [x] ++ y :: [z]).
  rewrite app_assoc. apply list_lookup_middle.
  rewrite length_app. simpl. lia.
Qed.

Lemma returned_cmd_txt o h hdr data :
  h !! header o = Some hdr ->
  returned (cmd_txt data) {| self := o; heap := h |}
  = Some (envelope o hdr
            ([STX] ++ CMD_WRITE_TXT ++ text_fields o ++ data ++ [ETX])).
Proof.
  intros Hh. unfold returned. rewrite (cmd_txt_run _ _ hdr) by done.
  cbn [heap]. rewrite returned_second. unfold text_fields.
  by rewrite <- !app_assoc.
Qed.

Lemma returned_cmd_write_special o h hdr data :
  h !! header o = Some hdr ->
  returned (cmd_write_special data) {| self := o; heap := h |}
  = Some (envelope o hdr ([STX] ++ CMD_WRITE_SPC ++ data ++ [ETX])).
Proof.
  intros Hh. unfold returned. rewrite (cmd_write_special_run _ _ hdr) by done.
  cbn [heap]. by rewrite returned_second.
Qed.

(** A wrapper that binds the frame to [mesg] and returns it. *)
Lemma returned_wrapper (m : M loc) s :
  returned (mesg ← m; mret mesg) s = returned m s.
Proof.
  unfold returned, mbind, M_bind. by destruct (m s) as [[l|e] s'].
Qed.
End Encoders.

(** ** What a call leaves alone *)

Section Keeps.
Context {A B : Type}.
Implicit Types (n : nat) (m : M A) (k : A -> M B).

Lemma keeps_length n m Q s :
  keeps n m Q -> (n <= length (heap s))%nat -> (n <= length (heap (m s).2))%nat.
Proof.
  intros Hm Hn. destruct (Hm s Hn) as (_ & Ht & _).
  apply (f_equal length) in Ht. rewrite !length_take in Ht. lia.
Qed.

Lemma keeps_ret n (a : A) (Q : A -> Prop) : Q a -> keeps n (mret a) Q.
Proof. intros Ha s _. by cbn. Qed.

Lemma keeps_raise n e (Q : A -> Prop) : keeps n (raise e) Q.
Proof. intros s _. by cbn. Qed.

Lemma keeps_bind n m k (Q : A -> Prop) (R : B -> Prop) :
  keeps n m Q -> (forall a, Q a -> keeps n (k a) R) -> keeps n (m ≫= k) R.
Proof.
  intros Hm Hk s Hn.
  pose proof (keeps_length _ _ _ _ Hm Hn) as Hn'.
  destruct (Hm s Hn) as (Hs & Ht & Hq).
  unfold mbind, M_bind. destruct (m s) as [[a|e] s']; cbn in *.
  - destruct (Hk a Hq s' Hn') as (Hs' & Ht' & Hr).
    split; [congruence|]. split; [congruence|done].
  - done.
Qed.

Lemma keeps_weaken n m (Q R : A -> Prop) :
  keeps n m Q -> (forall a, Q a -> R a) -> keeps n m R.
Proof.
  intros Hm HQR s Hn. destruct (Hm s Hn) as (Hs & Ht & Hq).
  split; [done|]. split; [done|]. destruct (m s).1; auto.
Qed.
End Keeps.

Section KeepsStore.
Implicit Types (n : nat) (l : loc) (b : bytes) (v : value).

Lemma keeps_getattr {T} n (attr : MovingSign -> T) :
  keeps n (getattr attr) (fun _ => True).
Proof. intros s _. by cbn. Qed.

Lemma keeps_alloc n b : keeps n (alloc b) (fun l => (n <= l)%nat).
Proof.
  intros s Hn. cbn. split; [done|]. split; [|done].
  by rewrite take_app_le.
Qed.

Lemma keeps_load n l : keeps n (load l) (fun _ => True).
Proof. intros s _. unfold load. by destruct (heap s !! l). Qed.

Lemma keeps_store n l b : (n <= l)%nat -> keeps n (store l b) (fun _ => True).
Proof.
  intros Hl s _. cbn. split; [done|]. split; [|done].
  by apply take_insert_ge.
Qed.

Lemma keeps_buffer n v : keeps n (buffer v) (fun _ => True).
Proof. destruct v; [by apply keeps_ret | apply keeps_load]. Qed.

Lemma keeps_iadd n l v : (n <= l)%nat -> keeps n (iadd l v) (fun _ => True).
Proof.
  intros Hl. unfold iadd.
  eapply keeps_bind; [apply keeps_buffer|intros x _].
  eapply keeps_bind; [apply keeps_load|intros old _].
  by apply keeps_store.
Qed.

Lemma keeps_iadd_attr n l attr :
  (n <= l)%nat -> keeps n (iadd_attr l attr) (fun _ => True).
Proof.
  intros Hl. unfold iadd_attr.
  eapply keeps_bind; [apply keeps_getattr|intros x _].
  by apply keeps_iadd.
Qed.

Lemma keeps_bytearray n v : keeps n (bytearray v) (fun l => (n <= l)%nat).
Proof.
  unfold bytearray.
  eapply keeps_bind; [apply keeps_buffer|intros x _]. apply keeps_alloc.
Qed.

Lemma keeps_load_name n locals name :
  keeps n (load_name locals name) (fun _ => True).
Proof.
  unfold load_name. destruct (list_find _ locals) as [[i kv]|].
  - by apply keeps_ret.
  - case_bool_decide; apply keeps_raise.
Qed.
End KeepsStore.

(** The body of a method, command by command. *)
Ltac keeps_prim :=
  first [ apply keeps_alloc | apply keeps_getattr | apply keeps_load
        | apply keeps_buffer | apply keeps_bytearray | apply keeps_load_name
        | by apply keeps_iadd | by apply keeps_iadd_attr
        | by apply keeps_ret ].

Ltac keeps_body tac :=
  repeat first [ keeps_prim | tac
               | eapply keeps_bind; [first [keeps_prim | tac]|intros ? ?] ].

Section KeepsMethods.
Implicit Types (n : nat) (data : bytes).

Lemma keeps_checksum n mesg : keeps n (checksum mesg) (fun _ => True).
Proof. unfold checksum. keeps_body fail. Qed.

Lemma keeps_protocol n mesg : keeps n (protocol mesg) (fun _ => True).
Proof. unfold protocol. keeps_body ltac:(apply keeps_checksum). Qed.

Lemma keeps_cmd_txt n data : keeps n (cmd_txt data) (fun _ => True).
Proof. unfold cmd_txt. keeps_body ltac:(apply keeps_protocol). Qed.

Lemma keeps_cmd_var n var attr data :
  keeps n (cmd_var var attr data) (fun _ => True).
Proof. unfold cmd_var. keeps_body ltac:(apply keeps_protocol). Qed.

Lemma keeps_cmd_gfx n attr data : keeps n (cmd_gfx attr data) (fun _ => True).
Proof. unfold cmd_gfx. keeps_body ltac:(apply keeps_protocol). Qed.

Lemma keeps_cmd_write_special n data :
  keeps n (cmd_write_special data) (fun _ => True).
Proof. unfold cmd_write_special. keeps_body ltac:(apply keeps_protocol). Qed.

Lemma keeps_cmd_read_special n data :
  keeps n (cmd_read_special data) (fun _ => True).
Proof. unfold cmd_read_special. keeps_body ltac:(apply keeps_protocol). Qed.

(** From [keeps] at the size of the store to [unchanged]. *)
Lemma keeps_unchanged {A} (m : M A) (Q : A -> Prop) s :
  keeps (length (heap s)) m Q -> unchanged s (m s).2.
Proof.
  intros Hm. destruct (Hm s (Nat.le_refl _)) as (Hs & Ht & _).
  split; [by rewrite Hs|].
  intros l b Hl. rewrite firstn_all in Ht.
  rewrite <- Ht in Hl. by apply lookup_take_Some in Hl as [? _].
Qed.
End KeepsMethods.

(** ** Code tables as dictionaries *)

Section Tables.
Implicit Types (items : list (string * bytes)) (name : string) (code : bytes).

Lemma dict_literal_snoc items kv :
  dict_literal (items ++ [kv]) = <[kv.1 := kv.2]> (dict_literal items).
Proof. unfold dict_literal. by rewrite foldl_snoc. Qed.

(** Whatever a name is bound to was written for it in the display. *)
Lemma dict_literal_item items name code :
  dict_literal items !! name = Some code -> (name, code) ∈ items.
Proof.
  induction items as [|[k v] items IH] using rev_ind; [done|].
  rewrite dict_literal_snoc. simpl.
  destruct (decide (k = name)) as [->|Hne].
  - rewrite lookup_insert_eq. intros [= ->]. apply elem_of_app. right. by left.
  - rewrite lookup_insert_ne by done. intros H. apply elem_of_app. left. auto.
Qed.

(** With no key written twice every item is in the dictionary. *)
Lemma dict_literal_lookup items name code :
  NoDup items.*1 ->
  (name, code) ∈ items -> dict_literal items !! name = Some code.
Proof.
  induction items as [|[k v] items IH] using rev_ind; [by intros _ ?%elem_of_nil|].
  rewrite fmap_app, dict_literal_snoc. simpl.
  intros [Hnd [Hk _]]%list.NoDup_app [Hin|Hin%list_elem_of_singleton]%elem_of_app.
  - rewrite lookup_insert_ne; [by apply IH|].
    intros <-. apply (Hk k); [|by left].
    apply list_elem_of_fmap. by exists (k, code).
  - injection Hin as -> ->. by rewrite lookup_insert_eq.
Qed.

Lemma dict_literal_size items :
  NoDup items.*1 -> size (dict_literal items) = length items.
Proof.
  induction items as [|[k v] items IH] using rev_ind; [done|].
  rewrite fmap_app, dict_literal_snoc, length_app. simpl.
  intros [Hnd [Hk _]]%list.NoDup_app.
  assert (dict_literal items !! k = None) as Hfresh.
  { destruct (dict_literal items !! k) as [c|] eqn:E; [|done].
    exfalso. apply dict_literal_item in E. apply (Hk k); [|by left].
    apply list_elem_of_fmap. by exists (k, c). }
  rewrite map_size_insert_None by done. rewrite IH by done. lia.
Qed.

Lemma pair_of_code items name1 name2 code :
  NoDup items.*2 ->
  (name1, code) ∈ items -> (name2, code) ∈ items -> name1 = name2.
Proof.
  induction items as [|[k v] items IH]; [by intros _ ?%elem_of_nil|].
  rewrite fmap_cons. simpl.
  intros [Hv Hnd]%list.NoDup_cons [E1|H1]%elem_of_cons [E2|H2]%elem_of_cons.
  - congruence.
  - injection E1 as -> ->. exfalso. apply Hv.
    apply list_elem_of_fmap. by exists (name2, v).
  - injection E2 as -> ->. exfalso. apply Hv.
    apply list_elem_of_fmap. by exists (name1, v).
  - by apply IH.
Qed.

Lemma dict_literal_injective items :
  NoDup items.*2 -> injective_table (dict_literal items).
Proof.
  intros Hnd name1 name2 code H1%dict_literal_item H2%dict_literal_item.
  by apply (pair_of_code items _ _ code).
Qed.

Lemma dict_literal_single_byte items :
  Forall (fun kv => length kv.2 = 1%nat) items ->
  single_byte_codes (dict_literal items).
Proof.
  intros Hall name code H%dict_literal_item.
  rewrite list.Forall_forall in Hall. apply (Hall _ H).
Qed.
End Tables.

(** The checks a table needs, decided by evaluation. *)
Ltac by_evaluation := apply (bool_decide_unpack _); vm_compute; exact I.

Lemma DISPLAY_MODE_distinct :
  NoDup DISPLAY_MODE_items.*1 /\ NoDup DISPLAY_MODE_items.*2 /\
  Forall (fun kv => length kv.2 = 1%nat) DISPLAY_MODE_items.
Proof. split_and!; by_evaluation. Qed.

Lemma DISPLAY_SPEED_distinct :
  NoDup DISPLAY_SPEED_items.*1 /\ NoDup DISPLAY_SPEED_items.*2 /\
  Forall (fun kv => length kv.2 = 1%nat) DISPLAY_SPEED_items.
Proof. split_and!; by_evaluation. Qed.

Lemma ALIGN_distinct :
  NoDup ALIGN_items.*1 /\ NoDup ALIGN_items.*2 /\
  Forall (fun kv => length kv.2 = 1%nat) ALIGN_items.
Proof. split_and!; by_evaluation. Qed.

Lemma FONT_distinct :
  NoDup FONT_items.*1 /\ NoDup FONT_items.*2 /\
  Forall (fun kv => length kv.2 = 1%nat) FONT_items.
Proof. split_and!; by_evaluation. Qed.

Lemma COLOR_distinct :
  NoDup COLOR_items.*1 /\ NoDup COLOR_items.*2 /\
  Forall (fun kv => length kv.2 = 1%nat) COLOR_items.
Proof. split_and!; by_evaluation. Qed.

Lemma SYMBOLS_distinct :
  NoDup SYMBOLS_items.*1 /\ NoDup SYMBOLS_items.*2 /\
  Forall (fun kv => length kv.2 = 1%nat) SYMBOLS_items.
Proof. split_and!; by_evaluation. Qed.

(** ** The instance: its header and its widths *)

Section Instance.
Implicit Types (s : state) (v : bytes).

Lemma init_header_ok sdr rcv objects : header_ok (__init__ sdr rcv objects).
Proof. unfold header_ok, __init__. cbn [self heap header]. by apply list_lookup_middle. Qed.

Lemma unchanged_header_ok s s' : unchanged s s' -> header_ok s -> header_ok s'.
Proof.
  intros [Ha Hh] Hok. unfold header_ok in *.
  specialize (Ha a_header). simpl in Ha. injection Ha as ->. by apply Hh.
Qed.

Lemma setattr_header_ok upd s :
  (forall o, header (upd o) = header o) ->
  header_ok s -> header_ok (setattr upd s).2.
Proof. intros Hupd Hok. unfold header_ok in *. cbn. by rewrite Hupd. Qed.

Lemma refit_fields f o :
  length f = 18%nat -> text_fields (refit f o) = f /\ 
  (length (sdr_addr o) = 2%nat -> length (rcv_addr o) = 2%nat ->
   fixed_width (refit f o)).
Proof.
  intros Hf.
  do 18 (destruct f as [|? f]; [discriminate Hf|]).
  destruct f; [|discriminate Hf].
  split; [reflexivity|]. intros Hs Hr. unfold fixed_width. simpl. tauto.
Qed.

Lemma length_envelope o hdr body :
  length (envelope o hdr body)
  = (length hdr + length (sdr_addr o) + length (rcv_addr o) + length body +
     length (checksum_of body) + 2)%nat.
Proof. unfold envelope. rewrite !length_app. simpl. lia. Qed.

Lemma length_text_fields o :
  fixed_width o -> length (text_fields o) = 18%nat.
Proof.
  unfold fixed_width, text_fields. intros H. rewrite !length_app. lia.
Qed.

Lemma length_checksum_of body :
  sum_bytes body <= 0xFFFF -> length (checksum_of body) = 4%nat.
Proof. intros H. unfold checksum_of. by rewrite format_04X_four. Qed.
End Instance.

(** ** The model on concrete inputs *)

Example format_04X_zero : format_04X 0 = bs "0000".
Proof. reflexivity. Qed.

Example format_04X_three_digits : format_04X 0xABC = bs "0ABC".
Proof. reflexivity. Qed.

Example format_04X_largest : format_04X 0xFFFF = bs "FFFF".
Proof. reflexivity. Qed.

Example format_04X_first_wide : format_04X 0x10000 = bs "10000".
Proof. reflexivity. Qed.

Example brightness_frame :
  returned (set_brightness (bs "5"))
           (__init__ default_sdr_addr default_rcv_addr [])
  = Some ([x00; x00; x00; x00; x00; x01] ++ bs "FF00" ++
          ([x02] ++ bs "WP5" ++ [x03]) ++ bs "00E1" ++ [x04]).
Proof. reflexivity. Qed.

Example clock_frame :
  returned (clock (bs "202403150930005"))
           (__init__ default_sdr_addr default_rcv_addr [])
  = Some ([x00; x00; x00; x00; x00; x01] ++ bs "FF00" ++
          ([x02] ++ bs "WA202403150930005" ++ [x03]) ++ bs "038F" ++ [x04]).
Proof. reflexivity. Qed.

Example addresses_are_read_at_the_call :
  returned (r ← set_rcv_addr (bs "07"); reset)
           (__init__ default_sdr_addr default_rcv_addr [])
  = Some ([x00; x00; x00; x00; x00; x01] ++ bs "FF07" ++
          ([x02] ++ bs "WB" ++ [x03]) ++ bs "009E" ++ [x04]).
Proof. reflexivity. Qed.

Example lookup_auto : DISPLAY_MODE !! "auto"%string = Some (bs "A").
Proof. reflexivity. Qed.

Example lookup_clock_mode : DISPLAY_MODE !! "clock"%string = Some (bs "Z").
Proof. reflexivity. Qed.

Example lookup_clock_symbol : SYMBOLS !! "clock"%string = Some [xd1].
Proof. reflexivity. Qed.

Example lookup_unknown : ALIGN !! "justify"%string = None.
Proof. reflexivity. Qed.

(** ** The checksum *)

(** The method returns the formatted sum of the buffer it is given. *)
Lemma checksum_returns s mesg body :
  holds s mesg body -> (checksum mesg s).1 = Ok (format_04X (sum_bytes body)).
Proof. destruct s as [o h]. intros H. by rewrite (checksum_run _ _ _ body). Qed.

(** What [checksum] adds up is the sum of the bytes. *)
Lemma sum_bytes_total body : sum_bytes body = byte_total body.
Proof.
  induction body as [|c body IH]; [done|].
  rewrite sum_bytes_cons, IH. done.
Qed.

Lemma hex_digit_nonzero d : 0 < d -> d < 16 -> hex_digit d <> "0"%byte.
Proof.
  intros Hpos Hd.
  assert (exists k, (0 < k < 16)%nat /\ d = N.of_nat k) as (k & Hk & ->).
  { exists (N.to_nat d). split; lia. }
  destruct k as [|k]; [lia|].
  do 15 (destruct k as [|k]; [by vm_compute|]). lia.
Qed.

(** The digits of a positive number do not start with a zero. *)
Lemma format_X_no_leading_zero n :
  0 < n -> exists c rest, format_X n = c :: rest /\ c <> "0"%byte.
Proof.
  induction n as [n IH] using (well_founded_induction N.lt_wf_0).
  intros Hpos. destruct (N.lt_ge_cases n 16) as [Hn|Hn].
  - rewrite format_X_small by done. eexists _, _. split; [done|].
    by apply hex_digit_nonzero.
  - rewrite format_X_step by done.
    destruct (IH (n / 16)) as (c & rest & -> & Hc).
    + apply N.div_lt; lia.
    + apply N.div_str_pos. lia.
    + eexists _, _. split; [|exact Hc]. reflexivity.
Qed.

(** X1: for a buffer whose bytes sum to more than [0xFFFF], [checksum]
    returns the hexadecimal digits of the sum, uncut and unpadded: five
    characters or more, all uppercase hexadecimal digits, the first not
    a zero, which read back as the sum of the bytes. *)
Lemma checksum_wide s mesg body :
  holds s mesg body -> 0xFFFF < byte_total body ->
  exists c rest,
    (checksum mesg s).1 = Ok (c :: rest) /\
    (5 <= length (c :: rest))%nat /\
    forallb is_upper_hex (c :: rest) = true /\
    c <> "0"%byte /\
    hex_value (c :: rest) = byte_total body.
Proof.
  intros H Hsum. rewrite <- sum_bytes_total in *.
  rewrite (checksum_returns s mesg body H).
  destruct (format_04X_wide _ Hsum) as [E Hlen].
  destruct (format_X_no_leading_zero (sum_bytes body)) as (c & rest & Hd & Hc);
    [lia|].
  exists c, rest. rewrite E, Hd. split; [done|].
  rewrite <- Hd. split; [done|]. split; [apply format_X_upper|].
  split; [done|apply format_X_value].
Qed.

Lemma checksum_wide_witness :
  exists ck,
    (checksum (Str overflow_body)
              (__init__ default_sdr_addr default_rcv_addr [])).1 = Ok ck /\
    (5 <= length ck)%nat /\
    hex_value ck = 0x10041.
Proof.
  destruct (checksum_wide (__init__ default_sdr_addr default_rcv_addr [])
              (Str overflow_body) overflow_body)
    as (c & rest & Hck & Hlen & _ & _ & Hval).
  - reflexivity.
  - rewrite <- sum_bytes_total, sum_overflow_body. lia.
  - exists (c :: rest). split; [exact Hck|]. split; [exact Hlen|].
    rewrite Hval, <- sum_bytes_total. apply sum_overflow_body.
Defined.

(** C1, where the code departs from it: on the 258 bytes of
    [overflow_body], which sum to [0x10041], [checksum] returns the five
    characters ["10041"] in every state; the result is not four
    characters long. *)
Theorem checksum_overflow_five_characters s :
  sum_bytes overflow_body = 0x10041 /\
  (checksum (Str overflow_body) s).1 = Ok (bs "10041") /\
  length (bs "10041") = 5%nat.
Proof.
  split; [apply sum_overflow_body|]. split; [|reflexivity].
  rewrite (checksum_returns s _ overflow_body) by reflexivity.
  by rewrite sum_overflow_body.
Qed.

(** C2: for a buffer whose bytes sum to at most [0xFFFF] (the sum
    [byte_total] of the unsigned byte values, defined apart from the
    code), [checksum] returns the four digits of that sum in base 16,
    most significant first and zero-padded: they are uppercase
    hexadecimal digits, they read back as the sum, and for the sum
    [0x41] they are ["0041"]. *)
Theorem checksum_four_digits s mesg body :
  holds s mesg body ->
  byte_total body <= 0xFFFF ->
  let n := byte_total body in
  let ck := [hex_digit (n / 4096); hex_digit (n / 256 mod 16);
             hex_digit (n / 16 mod 16); hex_digit (n mod 16)] in
  (checksum mesg s).1 = Ok ck /\
  forallb is_upper_hex ck = true /\
  hex_value ck = n /\
  (n = 0x41 -> ck = bs "0041").
Proof.
  intros Hm Hn n ck. subst n ck. rewrite <- (sum_bytes_total body) in *.
  pose proof (format_04X_four (sum_bytes body) Hn) as Hck.
  split; [by rewrite (checksum_returns s mesg body), Hck|].
  split; [|split].
  - rewrite <- Hck. by apply format_04X_upper.
  - rewrite <- Hck. apply format_04X_value.
  - intros E. by rewrite E.
Qed.

(** Three bytes [0x20 0x10 0x11], which sum to [0x41], and the
    three bytes [0xFF 0xFF 0x02], which sum to [0x0200]. *)
Lemma checksum_four_digits_witness :
  (checksum (Str [x20; x10; x11])
            (__init__ default_sdr_addr default_rcv_addr [])).1
  = Ok (bs "0041") /\
  (checksum (Str [xff; xff; x02])
            (__init__ default_sdr_addr default_rcv_addr [])).1
  = Ok (bs "0200").
Proof.
  split.
  - destruct (checksum_four_digits
                (__init__ default_sdr_addr default_rcv_addr [])
                (Str [x20; x10; x11]) [x20; x10; x11] eq_refl) as (H & _).
    + by vm_compute.
    + exact H.
  - destruct (checksum_four_digits
                (__init__ default_sdr_addr default_rcv_addr [])
                (Str [xff; xff; x02]) [xff; xff; x02] eq_refl) as (H & _).
    + by vm_compute.
    + exact H.
Defined.

(** ** The frame builder *)

(** C3: for a body held by the buffer [mesg], [protocol] returns five
    [0x00] bytes, [0x01], the sender address, the receiver address, the
    body as it is, the value [checksum] returns for the body alone, and
    [0x04], in this order and nothing else. *)
Theorem protocol_frame s mesg body :
  header_ok s ->
  holds s mesg body ->
  exists ck,
    (checksum (Str body) s).1 = Ok ck /\
    returned (protocol mesg) s
    = Some ([x00; x00; x00; x00; x00] ++ [x01] ++
            sdr_addr (self s) ++ rcv_addr (self s) ++
            body ++ ck ++ [x04]).
Proof.
  intros Hh Hm. exists (checksum_of body).
  split; [by apply checksum_returns|].
  destruct s as [o h]. unfold header_ok in Hh. cbn [self heap] in *.
  by rewrite (returned_protocol o h _ mesg body Hh Hm).
Qed.

Lemma protocol_frame_witness :
  returned (protocol (Str (bs "A")))
           (__init__ default_sdr_addr default_rcv_addr [])
  = Some ([x00; x00; x00; x00; x00; x01] ++ bs "FF00" ++ bs "A" ++
          bs "0041" ++ [x04]).
Proof.
  destruct (protocol_frame (__init__ default_sdr_addr default_rcv_addr [])
              (Str (bs "A")) (bs "A")) as (ck & Hck & Hf).
  - reflexivity.
  - reflexivity.
  - rewrite Hf. vm_compute in Hck. injection Hck as <-. reflexivity.
Defined.

(** The length of a frame, whatever the widths. *)
Lemma protocol_length s mesg body :
  header_ok s ->
  holds s mesg body ->
  length <$> returned (protocol mesg) s
  = Some (5 + 1 + length (sdr_addr (self s)) + length (rcv_addr (self s)) +
          length body + length (checksum_of body) + 1)%nat.
Proof.
  intros Hh Hm. destruct s as [o h].
  unfold header_ok in Hh. cbn [self heap] in *.
  rewrite (returned_protocol o h _ mesg body Hh Hm).
  cbn [fmap option_fmap option_map]. f_equal.
  rewrite length_envelope. simpl. lia.
Qed.

(** X2: with two-byte addresses and a body whose bytes sum to at most
    [0xFFFF], the frame is fifteen bytes longer than the body. *)
Lemma protocol_length_fits s mesg body :
  header_ok s ->
  holds s mesg body ->
  length (sdr_addr (self s)) = 2%nat ->
  length (rcv_addr (self s)) = 2%nat ->
  sum_bytes body <= 0xFFFF ->
  length <$> returned (protocol mesg) s = Some (length body + 15)%nat.
Proof.
  intros Hh Hm Hs Hr Hsum. rewrite (protocol_length s mesg body) by done.
  rewrite length_checksum_of by done. f_equal. lia.
Qed.

Lemma protocol_length_fits_witness :
  length <$> returned (protocol (Str (bs "A")))
                      (__init__ default_sdr_addr default_rcv_addr [])
  = Some 16%nat.
Proof.
  apply (protocol_length_fits
           (__init__ default_sdr_addr default_rcv_addr [])
           (Str (bs "A")) (bs "A")); try reflexivity.
  by vm_compute.
Defined.

(** C4, where the code departs from it: for the body [overflow_body],
    on a new instance with the default addresses, the frame is sixteen
    bytes longer than the body, not fifteen: 274 bytes for a body of 258. *)
Theorem protocol_overflow_length objects :
  length overflow_body = 258%nat /\
  length <$> returned (protocol (Str overflow_body))
                      (__init__ default_sdr_addr default_rcv_addr objects)
  = Some (length overflow_body + 16)%nat.
Proof.
  split; [reflexivity|].
  rewrite (protocol_length _ _ overflow_body);
    [|apply init_header_ok|reflexivity].
  unfold checksum_of. rewrite sum_overflow_body. reflexivity.
Qed.

(** ** The special functions *)

(** C5, where the code departs from it: [set_display_mode] reads the
    name [display_mode], which its body does not bind (the parameter is
    [display_time]); whatever byte the caller passes, the call raises
    [NameError] and returns no frame, leaving the state as it was. *)
Theorem set_display_mode_raises display_time s :
  set_display_mode display_time s = (Raise (NameError "display_mode"), s) /\
  returned (set_display_mode display_time) s = None.
Proof. split; reflexivity. Qed.

(** ** The text command *)

(** C6: for every payload, the empty one included, [cmd_txt] returns
    the frame [protocol] builds around the body STX, ['A'], filename,
    display_mode, display_speed, pause_time, show_date, start_time,
    stop_time, prep, align, the payload as it is, ETX.  With an empty
    payload and fields of the protocol's widths the body has 21 bytes,
    the checksum four, and the frame 36. *)
Theorem cmd_txt_frame s data :
  header_ok s ->
  let o := self s in
  let body d :=
    [STX] ++ bs "A" ++ filename o ++ display_mode o ++ display_speed o ++
    pause_time o ++ show_date o ++ start_time o ++ stop_time o ++
    prep o ++ align o ++ d ++ [ETX] in
  let frame d :=
    [NUL; NUL; NUL; NUL; NUL] ++ [SOH] ++ sdr_addr o ++ rcv_addr o ++
    body d ++ checksum_of (body d) ++ [EOT] in
  returned (cmd_txt data) s = Some (frame data) /\
  returned (cmd_txt data) s = returned (protocol (Str (body data))) s /\
  returned (cmd_txt []) s = Some (frame []) /\
  (fixed_width o ->
   length (body []) = 21%nat /\
   length (checksum_of (body [])) = 4%nat /\
   forallb is_upper_hex (checksum_of (body [])) = true /\
   length (frame []) = 36%nat).
Proof.
  intros Hh o body frame. destruct s as [o' h]. subst o.
  unfold header_ok in Hh. cbn [self heap] in *.
  assert (forall d, returned (cmd_txt d) {| self := o'; heap := h |}
                    = Some (frame d)) as Hret.
  { intros d. rewrite (returned_cmd_txt _ _ _ _ Hh).
    unfold frame, body, envelope, text_fields, CMD_WRITE_TXT.
    by rewrite <- !app_assoc. }
  split; [apply Hret|]. split; [|split; [apply Hret|]].
  - rewrite Hret. symmetry.
    by rewrite (returned_protocol _ _ _ _ (body data) Hh).
  - intros Hw. pose proof (length_text_fields _ Hw) as Hf.
    assert (length (body []) = 21%nat) as Hb.
    { unfold text_fields in Hf. unfold body.
      rewrite !length_app in *. simpl. lia. }
    assert (sum_bytes (body []) <= 0xFFFF) as Hsum.
    { pose proof (sum_bytes_bound (body [])) as Hbound.
      rewrite Hb in Hbound. lia. }
    assert (length (checksum_of (body [])) = 4%nat) as Hck
      by by apply length_checksum_of.
    split; [done|]. split; [done|]. split.
    + by apply format_04X_upper.
    + destruct Hw as (Hs & Hr & _). unfold frame.
      rewrite !length_app, Hb, Hck, Hs, Hr. reflexivity.
Qed.

Lemma cmd_txt_frame_witness :
  returned (cmd_txt []) (__init__ default_sdr_addr default_rcv_addr [])
  = Some ([x00; x00; x00; x00; x00; x01] ++ bs "FF00" ++
          [x02] ++ bs "AAA227F00002400000" ++ bs "3" ++ [x03] ++
          bs "03F2" ++ [x04]).
Proof.
  destruct (cmd_txt_frame (__init__ default_sdr_addr default_rcv_addr []) [])
    as (H & _).
  - reflexivity.
  - rewrite H. reflexivity.
Defined.

(** C7: on a new instance with the default addresses, [clear] returns
    the frame: five NUL, SOH, ["FF"], ["00"], the body STX ['W'] ['L']
    ETX with nothing between ['L'] and ETX, its checksum ["00A8"], EOT. *)
Theorem clear_default_frame objects :
  default_sdr_addr = bs "FF" /\ default_rcv_addr = bs "00" /\
  returned clear (__init__ default_sdr_addr default_rcv_addr objects)
  = Some ([x00; x00; x00; x00; x00] ++ [x01] ++ bs "FF" ++ bs "00" ++
          ([x02] ++ bs "W" ++ bs "L" ++ [x03]) ++ bs "00A8" ++ [x04]) /\
  returned clear (__init__ default_sdr_addr default_rcv_addr objects)
  = returned (protocol (Str ([STX] ++ bs "W" ++ bs "L" ++ [ETX])))
             (__init__ default_sdr_addr default_rcv_addr objects).
Proof.
  split; [reflexivity|]. split; [reflexivity|].
  pose proof (init_header_ok default_sdr_addr default_rcv_addr objects) as Hh.
  unfold header_ok, __init__ in *. cbn [self heap] in *.
  unfold clear. rewrite returned_wrapper.
  rewrite (returned_cmd_write_special _ _ _ _ Hh).
  split; [reflexivity|].
  by rewrite (returned_protocol _ _ _ _ ([STX] ++ bs "W" ++ bs "L" ++ [ETX]) Hh).
Qed.

(** ** The code tables *)

(** C8: in each of the six tables every name has exactly one code (the
    table is a map, and holds as many names as its display writes), the
    code is one byte, and two names with the same code are the same name. *)
Theorem code_tables_injective :
  (single_byte_codes DISPLAY_MODE /\ injective_table DISPLAY_MODE /\
   size DISPLAY_MODE = 25%nat) /\
  (single_byte_codes DISPLAY_SPEED /\ injective_table DISPLAY_SPEED /\
   size DISPLAY_SPEED = 5%nat) /\
  (single_byte_codes ALIGN /\ injective_table ALIGN /\
   size ALIGN = 3%nat) /\
  (single_byte_codes FONT /\ injective_table FONT /\
   size FONT = 25%nat) /\
  (single_byte_codes COLOR /\ injective_table COLOR /\
   size COLOR = 13%nat) /\
  (single_byte_codes SYMBOLS /\ injective_table SYMBOLS /\
   size SYMBOLS = 27%nat).
Proof.
  pose proof DISPLAY_MODE_distinct as (K1 & V1 & B1).
  pose proof DISPLAY_SPEED_distinct as (K2 & V2 & B2).
  pose proof ALIGN_distinct as (K3 & V3 & B3).
  pose proof FONT_distinct as (K4 & V4 & B4).
  pose proof COLOR_distinct as (K5 & V5 & B5).
  pose proof SYMBOLS_distinct as (K6 & V6 & B6).
  split_and!.
  - exact (dict_literal_single_byte _ B1).
  - exact (dict_literal_injective _ V1).
  - exact (dict_literal_size _ K1).
  - exact (dict_literal_single_byte _ B2).
  - exact (dict_literal_injective _ V2).
  - exact (dict_literal_size _ K2).
  - exact (dict_literal_single_byte _ B3).
  - exact (dict_literal_injective _ V3).
  - exact (dict_literal_size _ K3).
  - exact (dict_literal_single_byte _ B4).
  - exact (dict_literal_injective _ V4).
  - exact (dict_literal_size _ K4).
  - exact (dict_literal_single_byte _ B5).
  - exact (dict_literal_injective _ V5).
  - exact (dict_literal_size _ K5).
  - exact (dict_literal_single_byte _ B6).
  - exact (dict_literal_injective _ V6).
  - exact (dict_literal_size _ K6).
Qed.

(** ** Field values are taken as they come *)

(** C9: whatever byte strings the fields hold, of any length and with
    any code, [cmd_txt] raises nothing and returns a frame of the wire
    format: five NUL, SOH, the addresses, the body from STX to ETX with
    the fields in order and unchanged, the checksum of the body, EOT.
    Its length is that of its parts, so it departs from the nominal
    length by what the widths depart; and when the addresses have two
    bytes each and the nine text fields eighteen together, the frame is
    one that an instance with fields of the protocol's widths returns. *)
Theorem cmd_txt_permissive s data :
  header_ok s ->
  let o := self s in
  exists frame,
    returned (cmd_txt data) s = Some frame /\
    frame_shaped (sdr_addr o) (rcv_addr o) (bs "A") (text_fields o ++ data)
                 frame /\
    length frame
    = (10 + length (sdr_addr o) + length (rcv_addr o) +
       length (text_fields o) + length data +
       length (checksum_of ([STX] ++ bs "A" ++ (text_fields o ++ data) ++
                            [ETX])))%nat /\
    (length (sdr_addr o) = 2%nat -> length (rcv_addr o) = 2%nat ->
     length (text_fields o) = 18%nat ->
     exists o', fixed_width o' /\
       returned (cmd_txt data) {| self := o'; heap := heap s |} = Some frame).
Proof.
  intros Hh o. destruct s as [o' h]. subst o.
  unfold header_ok in Hh. cbn [self heap] in *.
  set (body := [STX] ++ bs "A" ++ (text_fields o' ++ data) ++ [ETX]).
  exists (envelope o' [NUL; NUL; NUL; NUL; NUL] body).
  assert (returned (cmd_txt data) {| self := o'; heap := h |}
          = Some (envelope o' [NUL; NUL; NUL; NUL; NUL] body)) as Hret.
  { rewrite (returned_cmd_txt _ _ _ _ Hh). unfold body, CMD_WRITE_TXT.
    by rewrite <- !app_assoc. }
  split; [done|]. split; [reflexivity|]. split.
  - rewrite length_envelope. unfold body. rewrite !length_app. simpl. lia.
  - intros Hs Hr Hf.
    destruct (refit_fields (text_fields o') o' Hf) as [Hfields Hwidth].
    exists (refit (text_fields o') o'). split; [by apply Hwidth|].
    rewrite (returned_cmd_txt (refit (text_fields o') o') h _ data Hh).
    rewrite Hfields. unfold body, envelope, CMD_WRITE_TXT.
    by rewrite <- !app_assoc.
Qed.

Lemma cmd_txt_permissive_witness :
  exists frame,
    returned (cmd_txt (bs "hi"))
             (set_text_mode (bs "~~~")
                (__init__ default_sdr_addr default_rcv_addr [])).2
    = Some frame /\
    length frame = 40%nat.
Proof.
  destruct (cmd_txt_permissive
              (set_text_mode (bs "~~~")
                 (__init__ default_sdr_addr default_rcv_addr [])).2
              (bs "hi")) as (frame & Hret & _ & Hlen & _).
  - reflexivity.
  - exists frame. split; [exact Hret|]. rewrite Hlen. reflexivity.
Defined.

(** ** What the methods change *)

Section Setters.
Implicit Types (s : state) (v : bytes).

Ltac setter_assigns :=
  split; [reflexivity|];
  split; [reflexivity|];
  split; [by intros [] ?|reflexivity].

Lemma set_sdr_addr_assigns v s :
  (set_sdr_addr v s).1 = Ok tt /\
  assigns_only a_sdr_addr v s (set_sdr_addr v s).2.
Proof. setter_assigns. Qed.

Lemma set_rcv_addr_assigns v s :
  (set_rcv_addr v s).1 = Ok tt /\
  assigns_only a_rcv_addr v s (set_rcv_addr v s).2.
Proof. setter_assigns. Qed.

Lemma set_text_mode_assigns v s :
  (set_text_mode v s).1 = Ok tt /\
  assigns_only a_display_mode v s (set_text_mode v s).2.
Proof. setter_assigns. Qed.

Lemma set_text_speed_assigns v s :
  (set_text_speed v s).1 = Ok tt /\
  assigns_only a_display_speed v s (set_text_speed v s).2.
Proof. setter_assigns. Qed.

Lemma set_text_align_assigns v s :
  (set_text_align v s).1 = Ok tt /\
  assigns_only a_align v s (set_text_align v s).2.
Proof. setter_assigns. Qed.
End Setters.

Lemma keeps_wrapper n (m : M loc) :
  keeps n m (fun _ => True) ->
  keeps n (mesg ← m; mret mesg) (fun _ => True).
Proof. intros Hm. eapply keeps_bind; [exact Hm|]. intros l _. by apply keeps_ret. Qed.

Lemma keeps_call (c : call) n :
  exists (A : Type) (m : M A),
    keeps n m (fun _ => True) /\ forall s, state_after c s = (m s).2.
Proof.
  destruct c.
  - exists bytes, (checksum mesg). split; [apply keeps_checksum|done].
  - exists loc, (protocol mesg). split; [apply keeps_protocol|done].
  - exists loc, (cmd_txt data). split; [apply keeps_cmd_txt|done].
  - exists loc, (cmd_var var attr data). split; [apply keeps_cmd_var|done].
  - exists loc, (cmd_gfx attr data). split; [apply keeps_cmd_gfx|done].
  - exists loc, (cmd_write_special data).
    split; [apply keeps_cmd_write_special|done].
  - exists loc, (cmd_read_special data).
    split; [apply keeps_cmd_read_special|done].
  - exists loc, clear.
    split; [apply keeps_wrapper, keeps_cmd_write_special|done].
  - exists loc, reset.
    split; [apply keeps_wrapper, keeps_cmd_write_special|done].
  - exists loc, (clock datetimeweek).
    split; [apply keeps_wrapper, keeps_cmd_write_special|done].
  - exists loc, (clock_sync now).
    split; [apply keeps_wrapper, keeps_wrapper, keeps_cmd_write_special|done].
  - exists loc, (passwd passwd0).
    split; [apply keeps_wrapper, keeps_cmd_write_special|done].
  - exists loc, (set_dev_num num).
    split; [apply keeps_wrapper, keeps_cmd_write_special|done].
  - exists loc, (set_display_times display_times).
    split; [apply keeps_wrapper, keeps_cmd_write_special|done].
  - exists loc, (set_display_mode display_time). split; [|done].
    unfold set_display_mode.
    eapply keeps_bind; [apply keeps_load_name|intros x _].
    apply keeps_wrapper, keeps_cmd_write_special.
  - exists loc, (set_cue_voice cue).
    split; [apply keeps_wrapper, keeps_cmd_write_special|done].
  - exists loc, (set_passwd_mode mode).
    split; [apply keeps_wrapper, keeps_cmd_write_special|done].
  - exists loc, (set_brightness level).
    split; [apply keeps_wrapper, keeps_cmd_write_special|done].
Qed.

(** The header holds its five NUL bytes in every state a program reaches. *)
Lemma reachable_header_ok s : reachable s -> header_ok s.
Proof.
  induction 1 as [sdr rcv objects|c s _ IH|v s _ IH|v s _ IH|v s _ IH
                 |v s _ IH|v s _ IH].
  - apply init_header_ok.
  - destruct (keeps_call c (length (heap s))) as (A & m & Hm & ->).
    apply (unchanged_header_ok s); [|done].
    by apply (keeps_unchanged m (fun _ => True)).
  - by apply setattr_header_ok.
  - by apply setattr_header_ok.
  - by apply setattr_header_ok.
  - by apply setattr_header_ok.
  - by apply setattr_header_ok.
Qed.

(** C10: every call that builds a frame (and [checksum]) leaves, whether
    it returns or raises, every attribute of the instance with its value
    and every [bytearray] that existed, the header among them, with its
    bytes; each of the five setters returns, gives its one attribute the
    value passed, and leaves every other attribute and the store alone. *)
Theorem calls_leave_session s :
  (forall c, unchanged s (state_after c s)) /\
  (forall v, (set_sdr_addr v s).1 = Ok tt /\
             assigns_only a_sdr_addr v s (set_sdr_addr v s).2) /\
  (forall v, (set_rcv_addr v s).1 = Ok tt /\
             assigns_only a_rcv_addr v s (set_rcv_addr v s).2) /\
  (forall v, (set_text_mode v s).1 = Ok tt /\
             assigns_only a_display_mode v s (set_text_mode v s).2) /\
  (forall v, (set_text_speed v s).1 = Ok tt /\
             assigns_only a_display_speed v s (set_text_speed v s).2) /\
  (forall v, (set_text_align v s).1 = Ok tt /\
             assigns_only a_align v s (set_text_align v s).2).
Proof.
  split.
  { intros c. destruct (keeps_call c (length (heap s))) as (A & m & Hm & ->).
    by apply (keeps_unchanged m (fun _ => True)). }
  split_and!; intros v.
  - apply set_sdr_addr_assigns.
  - apply set_rcv_addr_assigns.
  - apply set_text_mode_assigns.
  - apply set_text_speed_assigns.
  - apply set_text_align_assigns.
Qed.

(** * Further properties *)

(** ** More on the formatting *)

Section FormattingMore.
Implicit Types (n m : N) (b : bytes).

Lemma format_04X_length n :
  length (format_04X n) = (4 `max` length (format_X n))%nat.
Proof. unfold format_04X. rewrite length_app, length_replicate. lia. Qed.

Lemma format_04X_digits n : forallb is_upper_hex (format_04X n) = true.
Proof.
  unfold format_04X. rewrite forallb_app, format_X_upper, andb_true_r.
  induction (4 - length (format_X n))%nat as [|k IH]; [done|].
  simpl. by rewrite IH.
Qed.

Lemma format_04X_inj n m : format_04X n = format_04X m -> n = m.
Proof.
  intros H. rewrite <- (format_04X_value n), <- (format_04X_value m).
  by rewrite H.
Qed.

(** A larger number has at least as many digits. *)
Lemma format_X_length_mono n m :
  n <= m -> (length (format_X n) <= length (format_X m))%nat.
Proof.
  revert n. induction m as [m IH] using (well_founded_induction N.lt_wf_0).
  intros n Hnm. destruct (N.lt_ge_cases n 16) as [Hn|Hn].
  - rewrite (format_X_small n) by done. simpl.
    destruct (N.lt_ge_cases m 16) as [Hm|Hm].
    + by rewrite format_X_small.
    + rewrite format_X_step, length_app by done. simpl. lia.
  - rewrite (format_X_step n), (format_X_step m) by lia.
    rewrite !length_app. simpl.
    assert (length (format_X (n / 16)) <= length (format_X (m / 16)))%nat.
    { apply IH; [apply N.div_lt; lia|]. by apply N.Div0.div_le_mono. }
    lia.
Qed.

Lemma format_04X_length_mono n m :
  n <= m -> (length (format_04X n) <= length (format_04X m))%nat.
Proof.
  intros H. rewrite !format_04X_length.
  pose proof (format_X_length_mono n m H). lia.
Qed.

Lemma byte_to_N_inj (x y : byte) : Byte.to_N x = Byte.to_N y -> x = y.
Proof.
  intros H. pose proof (Byte.of_to_N x) as Hx. rewrite H, Byte.of_to_N in Hx.
  by injection Hx.
Qed.

Lemma sum_bytes_perm b1 b2 : b1 ≡ₚ b2 -> sum_bytes b1 = sum_bytes b2.
Proof.
  induction 1 as [|x l l' _ IH|x y l|l l' l'' _ IH1 _ IH2].
  - done.
  - by rewrite !sum_bytes_cons, IH.
  - rewrite !sum_bytes_cons. lia.
  - congruence.
Qed.
End FormattingMore.

(** X3: whatever the buffer holds, [checksum] returns at least four
    characters, all of them uppercase hexadecimal digits, and they read
    back as the exact sum of the bytes: no part of the sum is lost. *)
Lemma checksum_reads_back s mesg body :
  holds s mesg body ->
  exists ck,
    (checksum mesg s).1 = Ok ck /\
    (4 <= length ck)%nat /\
    forallb is_upper_hex ck = true /\
    hex_value ck = sum_bytes body.
Proof.
  intros Hm. exists (format_04X (sum_bytes body)).
  split; [by apply checksum_returns|]. split; [|split].
  - rewrite format_04X_length. lia.
  - apply format_04X_digits.
  - apply format_04X_value.
Qed.

Lemma checksum_reads_back_witness :
  exists ck,
    (checksum (Str overflow_body)
              (__init__ default_sdr_addr default_rcv_addr [])).1 = Ok ck /\
    hex_value ck = 0x10041.
Proof.
  destruct (checksum_reads_back
              (__init__ default_sdr_addr default_rcv_addr [])
              (Str overflow_body) overflow_body eq_refl)
    as (ck & Hck & _ & _ & Hval).
  exists ck. split; [exact Hck|]. rewrite Hval. apply sum_overflow_body.
Defined.

(** X4: the checksum does not see the order of the bytes: two buffers
    that hold the same bytes in any order get the same checksum. *)
Lemma checksum_order_blind s mesg1 mesg2 body1 body2 :
  holds s mesg1 body1 ->
  holds s mesg2 body2 ->
  body1 ≡ₚ body2 ->
  (checksum mesg1 s).1 = (checksum mesg2 s).1.
Proof.
  intros H1 H2 Hp.
  rewrite (checksum_returns s mesg1 body1), (checksum_returns s mesg2 body2)
    by done.
  by rewrite (sum_bytes_perm body1 body2).
Qed.

Lemma checksum_order_blind_witness :
  (checksum (Str (bs "AB")) (__init__ default_sdr_addr default_rcv_addr [])).1
  = (checksum (Str (bs "BA")) (__init__ default_sdr_addr default_rcv_addr [])).1.
Proof.
  apply (checksum_order_blind _ _ _ (bs "AB") (bs "BA"));
    [reflexivity|reflexivity|].
  apply perm_swap.
Defined.

(** X5: the checksum does see one changed byte: two buffers that
    differ in exactly one position get different checksums. *)
Lemma checksum_detects_one_byte s mesg1 mesg2 before after (x y : byte) :
  holds s mesg1 (before ++ x :: after) ->
  holds s mesg2 (before ++ y :: after) ->
  x <> y ->
  (checksum mesg1 s).1 <> (checksum mesg2 s).1.
Proof.
  intros H1 H2 Hxy.
  rewrite (checksum_returns s mesg1 _ H1), (checksum_returns s mesg2 _ H2).
  intros [= E%format_04X_inj]. apply Hxy, byte_to_N_inj.
  rewrite !sum_bytes_app, !sum_bytes_cons in E. lia.
Qed.

Lemma checksum_detects_one_byte_witness :
  (checksum (Str (bs "WL")) (__init__ default_sdr_addr default_rcv_addr [])).1
  <> (checksum (Str (bs "WB")) (__init__ default_sdr_addr default_rcv_addr [])).1.
Proof.
  apply (checksum_detects_one_byte _ _ _ (bs "W") [] "L"%byte "B"%byte);
    [reflexivity|reflexivity|discriminate].
Defined.

(** X6: a buffer of at most 257 bytes always gets a checksum of
    exactly four characters (257 bytes cannot sum past [0xFFFF]); 258
    bytes can, as [overflow_body] does. *)
Lemma checksum_short_body s mesg body :
  holds s mesg body ->
  (length body <= 257)%nat ->
  exists ck, (checksum mesg s).1 = Ok ck /\ length ck = 4%nat.
Proof.
  intros Hm Hlen. exists (format_04X (sum_bytes body)).
  split; [by apply checksum_returns|].
  rewrite format_04X_four; [done|].
  pose proof (sum_bytes_bound body). lia.
Qed.

Lemma checksum_short_body_witness :
  exists ck,
    (checksum (Str (replicate 257 xff))
              (__init__ default_sdr_addr default_rcv_addr [])).1 = Ok ck /\
    length ck = 4%nat.
Proof.
  apply (checksum_short_body _ _ (replicate 257 xff)); [reflexivity|].
  rewrite length_replicate. lia.
Defined.

(** ** More on the frames *)

Section FramesMore.
Implicit Types (o : MovingSign) (h : list bytes) (hdr body data : bytes).

(** Two bodies followed by their checksums are equal only if the
    bodies are: the longer body would have the larger sum, hence a
    checksum at least as long. *)
Lemma body_checksum_inj body1 body2 :
  body1 ++ checksum_of body1 = body2 ++ checksum_of body2 -> body1 = body2.
Proof.
  assert (forall b1 b2 k,
    b1 = b2 ++ k -> checksum_of b2 = k ++ checksum_of b1 -> b1 = b2) as Hcase.
  { intros b1 b2 k -> Hck. apply (f_equal length) in Hck.
    rewrite length_app in Hck.
    pose proof (format_04X_length_mono (sum_bytes b2) (sum_bytes (b2 ++ k))) as Hm.
    rewrite sum_bytes_app in Hm. unfold checksum_of in Hck.
    rewrite sum_bytes_app in Hck.
    assert (length k = 0%nat) as Hk by lia.
    destruct k; [by rewrite app_nil_r|discriminate Hk]. }
  intros [(k & H1 & H2)|(k & H1 & H2)]%app_eq_inv.
  - by apply (Hcase body1 body2 k).
  - symmetry. by apply (Hcase body2 body1 k).
Qed.

Lemma envelope_inj o hdr body1 body2 :
  envelope o hdr body1 = envelope o hdr body2 -> body1 = body2.
Proof.
  unfold envelope. intros H.
  do 4 apply app_inv_head in H.
  rewrite !app_assoc in H. apply app_inj_tail in H as [H _].
  by apply body_checksum_inj.
Qed.

Lemma returned_cmd_var o h hdr var attr data :
  h !! header o = Some hdr ->
  returned (cmd_var var attr data) {| self := o; heap := h |}
  = Some (envelope o hdr ([STX] ++ CMD_WRITE_VAR ++ var ++ attr ++ data ++ [ETX])).
Proof.
  intros Hh. unfold returned. rewrite (cmd_var_run _ _ hdr) by done.
  cbn [heap]. by rewrite returned_second.
Qed.

Lemma returned_cmd_gfx o h hdr attr data :
  h !! header o = Some hdr ->
  returned (cmd_gfx attr data) {| self := o; heap := h |}
  = Some (envelope o hdr
            ([STX] ++ CMD_WRITE_GFX ++ filename o ++ attr ++ data ++ [ETX])).
Proof.
  intros Hh. unfold returned. rewrite (cmd_gfx_run _ _ hdr) by done.
  cbn [heap]. by rewrite returned_second.
Qed.

Lemma returned_cmd_read_special o h hdr data :
  h !! header o = Some hdr ->
  returned (cmd_read_special data) {| self := o; heap := h |}
  = Some (envelope o hdr ([STX] ++ CMD_READ_SPC ++ data ++ [ETX])).
Proof.
  intros Hh. unfold returned. rewrite (cmd_read_special_run _ _ hdr) by done.
  cbn [heap]. by rewrite returned_second.
Qed.

(** The same, on a state whose header is in order. *)
Ltac on_state s H :=
  destruct s as [o h]; unfold header_ok in H; cbn [self heap] in *.

Lemma protocol_returns s mesg body :
  header_ok s -> holds s mesg body ->
  returned (protocol mesg) s
  = Some (envelope (self s) [NUL; NUL; NUL; NUL; NUL] body).
Proof. intros Hh Hm. on_state s Hh. by apply returned_protocol. Qed.

Lemma cmd_txt_returns s data :
  header_ok s ->
  returned (cmd_txt data) s
  = Some (envelope (self s) [NUL; NUL; NUL; NUL; NUL]
            ([STX] ++ CMD_WRITE_TXT ++ text_fields (self s) ++ data ++ [ETX])).
Proof. intros Hh. on_state s Hh. by apply returned_cmd_txt. Qed.

Lemma cmd_var_returns s var attr data :
  header_ok s ->
  returned (cmd_var var attr data) s
  = Some (envelope (self s) [NUL; NUL; NUL; NUL; NUL]
            ([STX] ++ CMD_WRITE_VAR ++ var ++ attr ++ data ++ [ETX])).
Proof. intros Hh. on_state s Hh. by apply returned_cmd_var. Qed.

Lemma cmd_gfx_returns s attr data :
  header_ok s ->
  returned (cmd_gfx attr data) s
  = Some (envelope (self s) [NUL; NUL; NUL; NUL; NUL]
            ([STX] ++ CMD_WRITE_GFX ++ filename (self s) ++ attr ++ data ++
             [ETX])).
Proof. intros Hh. on_state s Hh. by apply returned_cmd_gfx. Qed.

Lemma cmd_write_special_returns s data :
  header_ok s ->
  returned (cmd_write_special data) s
  = Some (envelope (self s) [NUL; NUL; NUL; NUL; NUL]
            ([STX] ++ CMD_WRITE_SPC ++ data ++ [ETX])).
Proof. intros Hh. on_state s Hh. by apply returned_cmd_write_special. Qed.

Lemma cmd_read_special_returns s data :
  header_ok s ->
  returned (cmd_read_special data) s
  = Some (envelope (self s) [NUL; NUL; NUL; NUL; NUL]
            ([STX] ++ CMD_READ_SPC ++ data ++ [ETX])).
Proof. intros Hh. on_state s Hh. by apply returned_cmd_read_special. Qed.

Lemma unchanged_holds s s' v body :
  unchanged s s' -> holds s v body -> holds s' v body.
Proof. intros [_ Hh]. destruct v; simpl; [done|apply Hh]. Qed.

Lemma unchanged_self s s' : unchanged s s' -> self s' = self s.
Proof.
  intros [Ha _]. destruct (self s), (self s').
  pose proof (Ha a_sdr_addr) as H1. pose proof (Ha a_rcv_addr) as H2.
  pose proof (Ha a_filename) as H3. pose proof (Ha a_display_mode) as H4.
  pose proof (Ha a_display_speed) as H5. pose proof (Ha a_pause_time) as H6.
  pose proof (Ha a_show_date) as H7. pose proof (Ha a_start_time) as H8.
  pose proof (Ha a_stop_time) as H9. pose proof (Ha a_prep) as H10.
  pose proof (Ha a_align) as H11. pose proof (Ha a_header) as H12.
  simpl in *. congruence.
Qed.

Lemma state_after_unchanged c s : unchanged s (state_after c s).
Proof.
  destruct (keeps_call c (length (heap s))) as (A & m & Hm & ->).
  by apply (keeps_unchanged m (fun _ => True)).
Qed.
End FramesMore.

(** X7: on one instance, two different bodies never give the same
    frame, whatever the lengths of their checksums: the body can be
    told from the frame. *)
Lemma protocol_injective s mesg1 mesg2 body1 body2 :
  header_ok s ->
  holds s mesg1 body1 ->
  holds s mesg2 body2 ->
  body1 <> body2 ->
  returned (protocol mesg1) s <> returned (protocol mesg2) s.
Proof.
  intros Hh H1 H2 Hne.
  rewrite (protocol_returns s mesg1 body1), (protocol_returns s mesg2 body2)
    by done.
  intros E. apply Hne, (envelope_inj (self s) [NUL; NUL; NUL; NUL; NUL]).
  congruence.
Qed.

Lemma protocol_injective_witness :
  returned (protocol (Str (bs "1")))
           (__init__ default_sdr_addr default_rcv_addr [])
  <> returned (protocol (Arr 0))
              (__init__ default_sdr_addr default_rcv_addr []).
Proof.
  apply (protocol_injective _ _ _ (bs "1") [NUL; NUL; NUL; NUL; NUL]);
    [reflexivity|reflexivity|reflexivity|discriminate].
Defined.

(** X8: on one instance, two different text payloads never give the
    same Write-Text frame. *)
Lemma cmd_txt_injective s data1 data2 :
  header_ok s ->
  data1 <> data2 ->
  returned (cmd_txt data1) s <> returned (cmd_txt data2) s.
Proof.
  intros Hh Hne. rewrite !cmd_txt_returns by done.
  intros E. apply Hne.
  assert (envelope (self s) [NUL; NUL; NUL; NUL; NUL]
            ([STX] ++ CMD_WRITE_TXT ++ text_fields (self s) ++ data1 ++ [ETX])
          = envelope (self s) [NUL; NUL; NUL; NUL; NUL]
            ([STX] ++ CMD_WRITE_TXT ++ text_fields (self s) ++ data2 ++ [ETX]))
    as E'%envelope_inj by congruence.
  do 3 apply app_inv_head in E'. by apply app_inv_tail in E'.
Qed.

Lemma cmd_txt_injective_witness :
  returned (cmd_txt (bs "ab"))
           (__init__ default_sdr_addr default_rcv_addr [])
  <> returned (cmd_txt (bs "ba"))
              (__init__ default_sdr_addr default_rcv_addr []).
Proof.
  apply cmd_txt_injective; [reflexivity|discriminate].
Defined.

(** X9: the other four encoders return the frame of [protocol] around
    their body: STX, the command code (['C'], ['E'], ['W'], ['R']), the
    arguments in order ([cmd_gfx] puts the instance's filename first),
    ETX; none of them raises. *)
Lemma encoder_frames s var attr data :
  header_ok s ->
  let o := self s in
  let frame body :=
    Some ([NUL; NUL; NUL; NUL; NUL] ++ [SOH] ++ sdr_addr o ++ rcv_addr o ++
          body ++ checksum_of body ++ [EOT]) in
  returned (cmd_var var attr data) s
  = frame ([STX] ++ bs "C" ++ var ++ attr ++ data ++ [ETX]) /\
  returned (cmd_gfx attr data) s
  = frame ([STX] ++ bs "E" ++ filename o ++ attr ++ data ++ [ETX]) /\
  returned (cmd_write_special data) s
  = frame ([STX] ++ bs "W" ++ data ++ [ETX]) /\
  returned (cmd_read_special data) s
  = frame ([STX] ++ bs "R" ++ data ++ [ETX]).
Proof.
  intros Hh o frame. subst o frame. split_and!.
  - by rewrite cmd_var_returns.
  - by rewrite cmd_gfx_returns.
  - by rewrite cmd_write_special_returns.
  - by rewrite cmd_read_special_returns.
Qed.

Lemma encoder_frames_witness :
  returned (cmd_var (bs "1") (bs "2") (bs "34"))
           (__init__ default_sdr_addr default_rcv_addr [])
  = Some ([x00; x00; x00; x00; x00; x01] ++ bs "FF00" ++
          ([x02] ++ bs "C1234" ++ [x03]) ++ bs "0112" ++ [x04]).
Proof.
  destruct (encoder_frames (__init__ default_sdr_addr default_rcv_addr [])
              (bs "1") (bs "2") (bs "34")) as (H & _).
  - reflexivity.
  - rewrite H. reflexivity.
Defined.

(** X10: each special function that reads its own parameter returns
    the Write-Special frame of its subcommand letter followed by the
    argument as it is: [reset] 'B', [clock] and [clock_sync] 'A',
    [passwd] 'C', [set_dev_num] 'D', [set_display_times] 'E',
    [set_cue_voice] 'J', [set_passwd_mode] 'K', [set_brightness] 'P';
    none of them checks the length or the content of the argument. *)
Lemma special_function_frames s arg :
  header_ok s ->
  let o := self s in
  let frame payload :=
    let body := [STX] ++ bs "W" ++ payload ++ [ETX] in
    Some ([NUL; NUL; NUL; NUL; NUL] ++ [SOH] ++ sdr_addr o ++ rcv_addr o ++
          body ++ checksum_of body ++ [EOT]) in
  returned reset s = frame (bs "B") /\
  returned (clock arg) s = frame (bs "A" ++ arg) /\
  returned (clock_sync arg) s = frame (bs "A" ++ arg) /\
  returned (passwd arg) s = frame (bs "C" ++ arg) /\
  returned (set_dev_num arg) s = frame (bs "D" ++ arg) /\
  returned (set_display_times arg) s = frame (bs "E" ++ arg) /\
  returned (set_cue_voice arg) s = frame (bs "J" ++ arg) /\
  returned (set_passwd_mode arg) s = frame (bs "K" ++ arg) /\
  returned (set_brightness arg) s = frame (bs "P" ++ arg).
Proof.
  intros Hh o frame. subst o frame.
  unfold reset, clock_sync, clock, passwd, set_dev_num, set_display_times,
    set_cue_voice, set_passwd_mode, set_brightness.
  rewrite !returned_wrapper.
  split_and!; by rewrite cmd_write_special_returns.
Qed.

Lemma special_function_frames_witness :
  returned (set_cue_voice (bs "1"))
           (__init__ default_sdr_addr default_rcv_addr [])
  = Some ([x00; x00; x00; x00; x00; x01] ++ bs "FF00" ++
          ([x02] ++ bs "WJ1" ++ [x03]) ++ bs "00D7" ++ [x04]).
Proof.
  destruct (special_function_frames
              (__init__ default_sdr_addr default_rcv_addr []) (bs "1"))
    as (_ & _ & _ & _ & _ & _ & H & _).
  - reflexivity.
  - rewrite H. reflexivity.
Defined.



(** X12: a frame depends on the bytes asked for, not on how many frames
    were built before: after any call to a frame builder, [protocol]
    returns for the same buffer the bytes it would have returned before. *)
Lemma protocol_after_any_call s c mesg body :
  header_ok s ->
  holds s mesg body ->
  returned (protocol mesg) (state_after c s) = returned (protocol mesg) s.
Proof.
  intros Hh Hm. pose proof (state_after_unchanged c s) as Hu.
  rewrite (protocol_returns (state_after c s) mesg body).
  - rewrite (protocol_returns s mesg body) by done.
    by rewrite (unchanged_self _ _ Hu).
  - by apply (unchanged_header_ok s).
  - by apply (unchanged_holds s).
Qed.

Lemma protocol_after_any_call_witness :
  returned (protocol (Arr 0))
           (state_after (call_cmd_txt (bs "hello"))
              (__init__ default_sdr_addr default_rcv_addr []))
  = returned (protocol (Arr 0))
             (__init__ default_sdr_addr default_rcv_addr []).
Proof.
  apply (protocol_after_any_call _ _ _ [NUL; NUL; NUL; NUL; NUL]);
    reflexivity.
Defined.

(** X13: the three text setters are read by the next [cmd_txt]: after
    [set_text_mode], [set_text_speed] and [set_text_align] the body
    carries the three values in the display_mode, display_speed and
    align positions and the instance's other fields as they were. *)
Lemma text_setters_then_cmd_txt s mode speed al data :
  header_ok s ->
  let o := self s in
  let s' := (set_text_align al
               (set_text_speed speed (set_text_mode mode s).2).2).2 in
  let body :=
    [STX] ++ bs "A" ++ filename o ++ mode ++ speed ++ pause_time o ++
    show_date o ++ start_time o ++ stop_time o ++ prep o ++ al ++
    data ++ [ETX] in
  returned (cmd_txt data) s'
  = Some ([NUL; NUL; NUL; NUL; NUL] ++ [SOH] ++ sdr_addr o ++ rcv_addr o ++
          body ++ checksum_of body ++ [EOT]).
Proof.
  intros Hh o s' body. rewrite cmd_txt_returns.
  - subst o s' body. unfold envelope, text_fields, CMD_WRITE_TXT.
    cbn [self set_text_align set_text_speed set_text_mode setattr snd
         with_align with_display_speed with_display_mode
         sdr_addr rcv_addr filename display_mode display_speed pause_time
         show_date start_time stop_time prep align].
    by rewrite <- !app_assoc.
  - subst s'. unfold set_text_align, set_text_speed, set_text_mode.
    repeat (apply setattr_header_ok; [done|]). exact Hh.
Qed.

Lemma text_setters_then_cmd_txt_witness :
  returned (cmd_txt (bs "Hi"))
           (set_text_align (bs "1")
              (set_text_speed (bs "0")
                 (set_text_mode (bs "B")
                    (__init__ default_sdr_addr default_rcv_addr [])).2).2).2
  = Some ([x00; x00; x00; x00; x00; x01] ++ bs "FF00" ++
          ([x02] ++ bs "AAB027F00002400000" ++ bs "1" ++ bs "Hi" ++ [x03]) ++
          bs "04A0" ++ [x04]).
Proof.
  rewrite (text_setters_then_cmd_txt
             (__init__ default_sdr_addr default_rcv_addr [])
             (bs "B") (bs "0") (bs "1") (bs "Hi")); reflexivity.
Defined.

(** X14: of the instance, the Write-Variable, Write-Special and
    Read-Special frames (and [protocol] itself) read the two addresses
    only: two instances with the same addresses return the same frames,
    whatever their filename, display and schedule fields. *)
Lemma frames_read_addresses_only s1 s2 var attr data :
  header_ok s1 ->
  header_ok s2 ->
  sdr_addr (self s1) = sdr_addr (self s2) ->
  rcv_addr (self s1) = rcv_addr (self s2) ->
  returned (protocol (Str data)) s1 = returned (protocol (Str data)) s2 /\
  returned (cmd_var var attr data) s1 = returned (cmd_var var attr data) s2 /\
  returned (cmd_write_special data) s1
  = returned (cmd_write_special data) s2 /\
  returned (cmd_read_special data) s1 = returned (cmd_read_special data) s2.
Proof.
  intros H1 H2 Hs Hr.
  rewrite !(protocol_returns _ (Str data) data) by done.
  rewrite !cmd_var_returns, !cmd_write_special_returns,
    !cmd_read_special_returns by done.
  unfold envelope. rewrite Hs, Hr. done.
Qed.

Lemma frames_read_addresses_only_witness :
  returned (cmd_write_special (bs "L"))
           (__init__ default_sdr_addr default_rcv_addr [])
  = returned (cmd_write_special (bs "L"))
             (set_text_mode (bs "B")
                (state_after (call_cmd_txt (bs "x"))
                   (__init__ default_sdr_addr default_rcv_addr []))).2.
Proof.
  destruct (frames_read_addresses_only
              (__init__ default_sdr_addr default_rcv_addr [])
              (set_text_mode (bs "B")
                 (state_after (call_cmd_txt (bs "x"))
                    (__init__ default_sdr_addr default_rcv_addr []))).2
              [] [] (bs "L")) as (_ & _ & H & _).
  - reflexivity.
  - reflexivity.
  - reflexivity.
  - reflexivity.
  - exact H.
Defined.

(** X15: on an instance with fields of the protocol's widths, a text
    payload of at most 236 bytes gives a frame of exactly 36 bytes more
    than the payload: the body then has at most 257 bytes, which cannot
    overflow the four digits of the checksum. *)
Lemma cmd_txt_length s data :
  header_ok s ->
  fixed_width (self s) ->
  (length data <= 236)%nat ->
  length <$> returned (cmd_txt data) s = Some (36 + length data)%nat.
Proof.
  intros Hh Hw Hd. rewrite cmd_txt_returns by done.
  cbn [fmap option_fmap option_map]. f_equal.
  pose proof (length_text_fields _ Hw) as Hf.
  destruct Hw as (Hs & Hr & _).
  set (body := [STX] ++ CMD_WRITE_TXT ++ text_fields (self s) ++ data ++ [ETX]).
  assert (length body = 21 + length data)%nat as Hb.
  { unfold body. rewrite !length_app, Hf. simpl. lia. }
  rewrite length_envelope, Hs, Hr, Hb.
  rewrite length_checksum_of; [simpl; lia|].
  pose proof (sum_bytes_bound body). lia.
Qed.

Lemma cmd_txt_length_witness :
  length <$> returned (cmd_txt (bs "Hello"))
                      (__init__ default_sdr_addr default_rcv_addr [])
  = Some 41%nat.
Proof.
  apply (cmd_txt_length (__init__ default_sdr_addr default_rcv_addr [])
           (bs "Hello")).
  - reflexivity.
  - by vm_compute.
  - simpl. lia.
Defined.

(** X16: the widths of the instance: [__init__] with two-byte
    addresses gives fields of the protocol's widths, no frame builder
    changes them, a setter given a value of its field's width keeps
    them, and a setter given any other width breaks them, for the
    setters check nothing. *)
Lemma widths_of_the_instance :
  (forall sdr rcv objects,
     length sdr = 2%nat -> length rcv = 2%nat ->
     fixed_width (self (__init__ sdr rcv objects))) /\
  (forall c s, fixed_width (self s) -> fixed_width (self (state_after c s))) /\
  (forall v s, fixed_width (self s) ->
     (fixed_width (self (set_sdr_addr v s).2) <-> length v = 2%nat) /\
     (fixed_width (self (set_rcv_addr v s).2) <-> length v = 2%nat) /\
     (fixed_width (self (set_text_mode v s).2) <-> length v = 1%nat) /\
     (fixed_width (self (set_text_speed v s).2) <-> length v = 1%nat) /\
     (fixed_width (self (set_text_align v s).2) <-> length v = 1%nat)).
Proof.
  split_and!.
  - intros sdr rcv objects Hs Hr. unfold fixed_width. simpl. tauto.
  - intros c s Hw. by rewrite (unchanged_self _ _ (state_after_unchanged c s)).
  - intros v s Hw. unfold fixed_width in *. simpl. tauto.
Qed.

(** ** More on the code tables *)

Lemma dict_literal_no_reserved items :
  NoDup items.*1 ->
  Forall (fun kv => Forall (fun c => c ∉ reserved_bytes) kv.2) items ->
  no_reserved_codes (dict_literal items) /\
  same_items (dict_literal items) items.
Proof.
  intros Hnd Hall. split.
  - intros name code H%dict_literal_item c Hc.
    rewrite list.Forall_forall in Hall. specialize (Hall _ H). simpl in Hall.
    rewrite list.Forall_forall in Hall. by apply Hall.
  - intros name code. split; [apply dict_literal_item|].
    by apply dict_literal_lookup.
Qed.

Lemma tables_avoid_reserved_bytes :
  Forall (fun items : list (string * bytes) =>
            Forall (fun kv => Forall (fun c => c ∉ reserved_bytes) kv.2) items)
         [DISPLAY_MODE_items; DISPLAY_SPEED_items; ALIGN_items; FONT_items;
          COLOR_items; SYMBOLS_items].
Proof. by_evaluation. Qed.

(** X17: a lookup in a code table finds exactly what the table's
    display writes: a name has a code if and only if the display pairs
    them, so a name the display does not write has no code. *)
Lemma code_table_lookups :
  same_items DISPLAY_MODE DISPLAY_MODE_items /\
  same_items DISPLAY_SPEED DISPLAY_SPEED_items /\
  same_items ALIGN ALIGN_items /\
  same_items FONT FONT_items /\
  same_items COLOR COLOR_items /\
  same_items SYMBOLS SYMBOLS_items.
Proof.
  pose proof tables_avoid_reserved_bytes as H.
  repeat (apply list.Forall_cons in H as [? H]).
  split_and!; apply dict_literal_no_reserved; try done.
  - apply DISPLAY_MODE_distinct.
  - apply DISPLAY_SPEED_distinct.
  - apply ALIGN_distinct.
  - apply FONT_distinct.
  - apply COLOR_distinct.
  - apply SYMBOLS_distinct.
Qed.

(** X18: no code of any table contains a byte the class reserves: not
    a marker of the frame (NUL, SOH, STX, ETX, EOT) and not a lead byte
    of an inline font or colour code ([0xFE], [0xFD]); a code put into
    a text payload cannot be taken for one of them. *)
Lemma code_tables_avoid_reserved :
  no_reserved_codes DISPLAY_MODE /\
  no_reserved_codes DISPLAY_SPEED /\
  no_reserved_codes ALIGN /\
  no_reserved_codes FONT /\
  no_reserved_codes COLOR /\
  no_reserved_codes SYMBOLS.
Proof.
  pose proof tables_avoid_reserved_bytes as H.
  repeat (apply list.Forall_cons in H as [? H]).
  split_and!; apply dict_literal_no_reserved; try done.
  - apply DISPLAY_MODE_distinct.
  - apply DISPLAY_SPEED_distinct.
  - apply ALIGN_distinct.
  - apply FONT_distinct.
  - apply COLOR_distinct.
  - apply SYMBOLS_distinct.
Qed.

(** ** More on the instance *)

(** X19: the class has no method that assigns [filename], [pause_time],
    [show_date], [start_time], [stop_time] or [prep]: in every state a
    program reaches through the methods they hold what [__init__] gave
    them, so every Write-Text body names file ['A']. *)
Lemma fields_without_setter s :
  reachable s ->
  filename (self s) = bs "A" /\
  pause_time (self s) = bs "2" /\
  show_date (self s) = bs "7F" /\
  start_time (self s) = bs "0000" /\
  stop_time (self s) = bs "2400" /\
  prep (self s) = bs "000".
Proof.
  induction 1 as [sdr rcv objects|c s _ IH|v s _ IH|v s _ IH|v s _ IH
                 |v s _ IH|v s _ IH]; try done.
  by rewrite (unchanged_self _ _ (state_after_unchanged c s)).
Qed.

Lemma fields_without_setter_witness :
  filename
    (self (set_text_mode (bs "B")
             (state_after (call_cmd_txt (bs "x"))
                (__init__ (bs "01") (bs "02") []))).2)
  = bs "A".
Proof.
  apply fields_without_setter.
  apply reach_set_text_mode, reach_call, reach_init.
Defined.

(** X20: the two address setters are read by every later frame: after
    [set_sdr_addr] and [set_rcv_addr] the frames of [protocol] and of
    the Write-Special encoder carry the two values, as they are, in the
    address positions. *)
Lemma address_setters_then_frames s sender receiver data :
  header_ok s ->
  let s' := (set_rcv_addr receiver (set_sdr_addr sender s).2).2 in
  let frame body :=
    Some ([NUL; NUL; NUL; NUL; NUL] ++ [SOH] ++ sender ++ receiver ++
          body ++ checksum_of body ++ [EOT]) in
  returned (protocol (Str data)) s' = frame data /\
  returned (cmd_write_special data) s'
  = frame ([STX] ++ bs "W" ++ data ++ [ETX]).
Proof.
  intros Hh s' frame.
  assert (header_ok s') as Hh'.
  { subst s'. unfold set_rcv_addr, set_sdr_addr.
    repeat (apply setattr_header_ok; [done|]). exact Hh. }
  rewrite (protocol_returns s' (Str data) data), cmd_write_special_returns
    by done.
  done.
Qed.

Lemma address_setters_then_frames_witness :
  returned (cmd_write_special (bs "B"))
           (set_rcv_addr (bs "07")
              (set_sdr_addr (bs "01")
                 (__init__ default_sdr_addr default_rcv_addr [])).2).2
  = Some ([x00; x00; x00; x00; x00; x01] ++ bs "0107" ++
          ([x02] ++ bs "WB" ++ [x03]) ++ bs "009E" ++ [x04]).
Proof.
  destruct (address_setters_then_frames
              (__init__ default_sdr_addr default_rcv_addr [])
              (bs "01") (bs "07") (bs "B")) as (_ & H).
  - reflexivity.
  - rewrite H. reflexivity.
Defined.

(** X21: a code looked up in [DISPLAY_MODE], [DISPLAY_SPEED] or [ALIGN]
    and passed to the setter of its field keeps the widths of the
    instance: the tables and the setters fit together. *)
Lemma table_codes_fit_setters s name code :
  fixed_width (self s) ->
  (DISPLAY_MODE !! name = Some code ->
   fixed_width (self (set_text_mode code s).2)) /\
  (DISPLAY_SPEED !! name = Some code ->
   fixed_width (self (set_text_speed code s).2)) /\
  (ALIGN !! name = Some code ->
   fixed_width (self (set_text_align code s).2)).
Proof.
  intros Hw.
  pose proof DISPLAY_MODE_distinct as (_ & _ & B1).
  pose proof DISPLAY_SPEED_distinct as (_ & _ & B2).
  pose proof ALIGN_distinct as (_ & _ & B3).
  split_and!; intros Hcode.
  - apply (dict_literal_single_byte _ B1) in Hcode.
    unfold fixed_width in *. simpl. tauto.
  - apply (dict_literal_single_byte _ B2) in Hcode.
    unfold fixed_width in *. simpl. tauto.
  - apply (dict_literal_single_byte _ B3) in Hcode.
    unfold fixed_width in *. simpl. tauto.
Qed.

Lemma table_codes_fit_setters_witness :
  fixed_width
    (self (set_text_mode (bs "B")
             (__init__ default_sdr_addr default_rcv_addr [])).2).
Proof.
  destruct (table_codes_fit_setters
              (__init__ default_sdr_addr default_rcv_addr [])
              "flash" (bs "B")) as (H & _).
  - by vm_compute.
  - apply H. reflexivity.
Defined.
